(** * pims: format dispatch, the ImageIO-backed frame sequence and the viewer

    A shallow embedding of [pims/api.py] and [pims/viewer.py].  Python
    integers are [Z], [str] is [string], dictionaries are [gmap], methods
    that mutate [self] or may raise are computations in the small
    state-and-exception monad [M]. *)

From Stdlib Require Import ZArith String Ascii List Bool Lia.
From stdpp Require Import base option list strings gmap.

Open Scope string_scope.
Open Scope Z_scope.

(** ** Python values, exceptions and effects *)

Module Py.

(** Exceptions that cross the modelled code.  [ImportError] and
    [IndexError] are the Python classes the source raises or relies on; the
    specification calls them BackendUnavailable and IndexOutOfRange.
    [ClosedSequence], [NoMatchingFiles] and [UnsupportedFormat] are the
    remaining kinds of the specification's error taxonomy.  [KeyError]
    is a dictionary lookup that misses; [ValueError] is what numpy and
    tuple unpacking raise. *)
Inductive exn : Type :=
| ImportError (msg : string)
| IndexError
| TypeError
| KeyError (key : string)
| ValueError
| StopIteration
| ClosedSequence
| NoMatchingFiles
| UnsupportedFormat
| DecodeError (msg : string).

Inductive result (A : Type) : Type :=
| Ok (a : A)
| Raise (e : exn).

Arguments Ok {A} a.
Arguments Raise {A} e.

Definition is_ok {A} (r : result A) : bool :=
  match r with Ok _ => true | Raise _ => false end.

Definition rmap {A B} (f : A -> B) (r : result A) : result B :=
  match r with Ok a => Ok (f a) | Raise e => Raise e end.

(** A method body: it reads and updates the receiver [S] and either returns
    or raises.  Updates made before a [raise] persist, as attribute
    assignments do in Python. *)
Definition M (S A : Type) : Type := S -> result A * S.

Definition raise {S A} (e : exn) : M S A := fun s => (Raise e, s).

Definition gets {S A} (f : S -> A) : M S A := fun s => (Ok (f s), s).

Definition modify {S} (f : S -> S) : M S unit := fun s => (Ok tt, f s).

(** Run a computation of a component [T] of the receiver. *)
Definition zoom {S T A} (get : S -> T) (set : S -> T -> S) (m : M T A) : M S A :=
  fun s => let '(r, t) := m (get s) in (r, set s t).

(** [str.lower()], on the ASCII letters. *)
Definition lower_ascii (c : ascii) : ascii :=
  let n := nat_of_ascii c in
  if ((65 <=? n) && (n <=? 90))%nat then ascii_of_nat (n + 32) else c.

Fixpoint lower (s : string) : string :=
  match s with
  | EmptyString => EmptyString
  | String c s' => String (lower_ascii c) (lower s')
  end.

(** [s.endswith(suffix)] for one suffix. *)
Fixpoint endswith1 (s suffix : string) : bool :=
  if String.eqb s suffix then true
  else match s with
       | EmptyString => false
       | String _ s' => endswith1 s' suffix
       end.

(** [s.endswith(suffixes)] for a tuple of suffixes. *)
Definition endswith (s : string) (suffixes : list string) : bool :=
  existsb (endswith1 s) suffixes.

(** [c in s] for a one-character [c]. *)
Fixpoint char_in (c : ascii) (s : string) : bool :=
  match s with
  | EmptyString => false
  | String d s' => Ascii.eqb c d || char_in c s'
  end.

(** [s[n]] for a non-negative literal [n]. *)
Definition str_at (s : string) (n : nat) : result ascii :=
  match String.get n s with
  | Some c => Ok c
  | None => Raise IndexError
  end.

(** Truth value of what a predicate method returned: [True] or, when the
    body falls off its end, [None]. *)
Definition truthy (v : option bool) : bool :=
  match v with Some b => b | None => false end.

End Py.

Export Py.

#[global] Instance M_ret {S} : MRet (M S) := fun A a s => (Ok a, s).

#[global] Instance M_bind {S} : MBind (M S) := fun A B f m s =>
  match m s with
  | (Ok a, s') => f a s'
  | (Raise e, s') => (Raise e, s')
  end.

(** ** Arrays and frames *)

Abbreviation dict := (gmap string string).

(** A numpy array, as far as the modelled code looks at it: its elements
    in order, its shape and the name of its scalar type.  The elements are
    integers, which is all an array of a boolean or integer type holds.
    An array of a float type can also hold fractions and NaN, which this
    type leaves out: about such an array only properties that depend on
    no element's value are stated, such as whether the viewer's [image]
    setter raises for it. *)
Record ndarray : Type := mk_ndarray {
  pixels : list Z;
  shape : list Z;
  dtype : string
}.

(** [imageio.core.Array]: an array carrying its [meta] dictionary. *)
Record Array : Type := mk_Array {
  array_data : ndarray;
  meta : dict
}.

(** [pims.frame.Frame(array, frame_no=..., metadata=...)]. *)
Record Frame : Type := mk_Frame {
  frame_data : ndarray;
  frame_no : Z;
  metadata : dict
}.

(** ** The reader object behind the facade *)

Module imageio.

(** Modelled from the spec: the reader object that [imageio.get_reader]
    returns (imageio is imported by [api.py] and is not part of the
    sources).  It follows the backend plugin interface of the
    specification: a reader has a length, decodes the frame at an index on
    every request (nothing is cached), has global metadata, and can be
    closed; closing is idempotent and every read after it fails with
    [ClosedSequence].  [rd_frames] is what decoding each index yields, a
    frame or a decode failure; [rd_reads] records the indices requested
    from the open reader, oldest first. *)
Record Reader : Type := mk_Reader {
  rd_frames : list (result Array);
  rd_meta : dict;
  rd_closed : bool;
  rd_reads : list Z
}.

Definition decode (rd : Reader) (i : Z) : result Array :=
  if i <? 0 then Raise IndexError
  else match rd_frames rd !! Z.to_nat i with
       | Some r => r
       | None => Raise IndexError
       end.

Definition log_read (i : Z) (rd : Reader) : Reader :=
  mk_Reader (rd_frames rd) (rd_meta rd) (rd_closed rd) (rd_reads rd ++ [i]).

Definition get_length : M Reader Z :=
  gets (fun rd => Z.of_nat (length (rd_frames rd))).

Definition get_data (i : Z) : M Reader Array := fun rd =>
  if rd_closed rd then (Raise ClosedSequence, rd)
  else (decode rd i, log_read i rd).

Definition get_meta_data : M Reader dict := gets rd_meta.

Definition close : M Reader unit :=
  modify (fun rd => mk_Reader (rd_frames rd) (rd_meta rd) true (rd_reads rd)).

(** [iter_data()] returns a generator over the frames in index order; the
    generator is the index of the frame it yields next. *)
Definition iter_data : M Reader Z := mret 0.

(** [next(iterable)]: the next frame and the advanced generator. *)
Definition next (it : Z) : M Reader (Array * Z) :=
  n ← get_length;
  if n <=? it then raise StopIteration
  else a ← get_data it; mret (a, it + 1).

End imageio.

(** ** The indexing layer of the frame sequences *)

Module base_frames.

Section FramesSequence.

(** A reader class supplies [__len__] and [get_frame]. *)
Variable Self : Type.
Variable __len__ : M Self Z.
Variable get_frame : Z -> M Self Frame.

(** Modelled from the spec: [FramesSequence.__getitem__] for one integer
    index ([pims.base_frames] is imported by [api.py] and is not part of the
    sources).  The index must lie in [[-length, length)]; a negative index
    counts from the end; the frame is then fetched with [get_frame].  Any
    other index fails with IndexOutOfRange, Python's [IndexError]. *)
Definition __getitem__ (index : Z) : M Self Frame :=
  n ← __len__;
  if (- n <=? index) && (index <? n)
  then get_frame (if index <? 0 then index + n else index)
  else raise IndexError.

(** Modelled from the spec: [get_range(ordered_indices)], indexing with a
    slice or a list of indices.  The result is lazy: its k-th element is
    fetched, as [__getitem__] fetches it, when the iteration reaches it. *)
Definition get_range (indices : list Z) : list (M Self Frame) :=
  map __getitem__ indices.

End FramesSequence.

End base_frames.

(** ** api.py *)

Module api.

Import imageio.

(** Positional and keyword arguments of a call. *)
Record Args : Type := mk_Args {
  positional : list string;
  keywords : dict
}.

(** What a reader name of the module is bound to: a reader class imported
    from a backend module, or the closure [raiser] that [not_available]
    returns, which remembers [requirement]. *)
Inductive ReaderCtor : Type :=
| reader_class (cls : string)
| raiser (requirement : string).

Definition not_available (requirement : string) : ReaderCtor :=
  raiser requirement.

Section Call.

(** Instances of the backend reader classes and their constructors live in
    the backend modules; they are parameters here. *)
Variable Backend : Type.
Variable construct : string -> Args -> result Backend.

(** Calling a bound name with any positional and keyword arguments. *)
Definition call (ctor : ReaderCtor) (args : Args) : result Backend :=
  match ctor with
  | reader_class cls => construct cls args
  | raiser requirement =>
      Raise (ImportError ("This reader requires " ++ requirement ++ "."))
  end.

End Call.

(** [class PimsFormat(Format)]: [extensions] is the tuple and [modes] the
    string that the [Format] base class stores. *)
Record PimsFormat : Type := mk_PimsFormat {
  name : string;
  description : string;
  extensions : list string;
  modes : string;
  _pims_reader : ReaderCtor
}.

(** The request a format is probed with: [mode] is two characters, the
    second one the kind of data asked for or ["?"]. *)
Record Request : Type := mk_Request {
  filename : string;
  mode : string
}.

Definition _can_read (self : PimsFormat) (request : Request) : result (option bool) :=
  match str_at (mode request) 1 with
  | Raise e => Raise e
  | Ok m =>
      if char_in m (modes self ++ "?") then
        if endswith (lower (filename request)) (extensions self) then Ok (Some true)
        else Ok None
      else Ok None
  end.


(** What the importing process finds installed.  [class_exts cls] is the
    extension tuple that [Format] stores for
    [' '.join(cls.class_exts())]. *)
Record Host : Type := mk_Host {
  pyav_importable : bool;
  pyav_available : bool;
  tifffile_available : bool;
  libtiff_available : bool;
  PIL_available : bool;
  bioformats_importable : bool;
  bioformats_available : bool;
  pims_nd2_importable : bool;
  class_exts : string -> list string
}.

(** The names the module body binds, and the formats it registers with
    ImageIO, in registration order. *)
Record Namespace : Type := mk_Namespace {
  formats : list PimsFormat;
  Video : ReaderCtor;
  TiffStack_tifffile : ReaderCtor;
  TiffStack_libtiff : ReaderCtor;
  TiffStack_pil : ReaderCtor;
  TiffStack : ReaderCtor;
  Bioformats : ReaderCtor;
  ND2_Reader : ReaderCtor
}.

Definition new_format (h : Host) (nm descr cls md : string) : PimsFormat :=
  mk_PimsFormat nm descr (class_exts h cls) md (reader_class cls).

Definition fmt_Norpix (h : Host) : PimsFormat :=
  new_format h "Norpix" "Read Norpix sequence (.seq) files" "NorpixSeq" "iv".

Definition fmt_Cine (h : Host) : PimsFormat :=
  new_format h "Cine" "Read cine files" "Cine" "iv".

Definition fmt_PyAV (h : Host) : PimsFormat :=
  new_format h "PyAV" "Reads video files via PyAV." "PyAVVideoReader" "iI".

Definition fmt_Tifffile (h : Host) : PimsFormat :=
  new_format h "Tifffile" "Reads .tiff files via tifffile.py." "TiffStack_tifffile" "iv".

Definition fmt_Libtiff (h : Host) : PimsFormat :=
  new_format h "Libtiff" "Reads .tiff files via libtiff" "TiffStack_libtiff" "iv".

Definition fmt_PIL (h : Host) : PimsFormat :=
  new_format h "PIL" "Reads .tiff files via PIL/Pillow" "TiffStack_pil" "iv".

Definition fmt_Bioformats (h : Host) : PimsFormat :=
  new_format h "Bioformats"
    "Reads multidimensional images from filed supported by Bioformats."
    "BioformatsReader" "iIvV".

Definition fmt_ND2 (h : Host) : PimsFormat :=
  new_format h "ND2_Reader"
    "Reads .nd2 images from NIS Elements images via the Nikon SDK."
    "ND2_Reader" "iIvV".

(** The module body from the Norpix registration to the [ND2_Reader]
    block.  A [try] block whose import fails, or whose [available()] is
    false and so raises [ImportError] itself, ends in its [except] clause. *)
Definition module_body (h : Host) : Namespace :=
  let fs := [fmt_Norpix h; fmt_Cine h] in
  let '(video, fs) :=
    if pyav_importable h && pyav_available h
    then (reader_class "PyAVVideoReader", (fs ++ [fmt_PyAV h])%list)
    else (not_available "PyAV and/or PIL/Pillow", fs) in
  let '(tifffile, fs) :=
    if tifffile_available h
    then (reader_class "TiffStack_tifffile", (fs ++ [fmt_Tifffile h])%list)
    else (not_available "tifffile", fs) in
  let '(libtiff, fs) :=
    if libtiff_available h
    then (reader_class "TiffStack_libtiff", (fs ++ [fmt_Libtiff h])%list)
    else (not_available "libtiff", fs) in
  let '(pil, fs) :=
    if PIL_available h
    then (reader_class "TiffStack_pil", (fs ++ [fmt_PIL h])%list)
    else (not_available "PIL or Pillow", fs) in
  let tiffstack :=
    if tifffile_available h then tifffile
    else if libtiff_available h then libtiff
    else if PIL_available h then pil
    else not_available "tifffile, libtiff, or PIL/Pillow" in
  let '(bioformats, fs) :=
    if bioformats_importable h && bioformats_available h
    then (reader_class "BioformatsReader", (fs ++ [fmt_Bioformats h])%list)
    else (not_available "JPype", fs) in
  let '(nd2, fs) :=
    if pims_nd2_importable h
    then (reader_class "ND2_Reader", (fs ++ [fmt_ND2 h])%list)
    else (not_available "pims_nd2", fs) in
  mk_Namespace fs video tifffile libtiff pil tiffstack bioformats nd2.

(** The reader names that stand for an optional backend. *)
Inductive backend_name : Type :=
| N_Video
| N_TiffStack_tifffile
| N_TiffStack_libtiff
| N_TiffStack_pil
| N_TiffStack
| N_Bioformats
| N_ND2_Reader.

Definition binding (ns : Namespace) (b : backend_name) : ReaderCtor :=
  match b with
  | N_Video => Video ns
  | N_TiffStack_tifffile => TiffStack_tifffile ns
  | N_TiffStack_libtiff => TiffStack_libtiff ns
  | N_TiffStack_pil => TiffStack_pil ns
  | N_TiffStack => TiffStack ns
  | N_Bioformats => Bioformats ns
  | N_ND2_Reader => ND2_Reader ns
  end.

(** The decoding library behind a name is missing on the host. *)
Definition library_missing (h : Host) (b : backend_name) : bool :=
  match b with
  | N_Video => negb (pyav_importable h && pyav_available h)
  | N_TiffStack_tifffile => negb (tifffile_available h)
  | N_TiffStack_libtiff => negb (libtiff_available h)
  | N_TiffStack_pil => negb (PIL_available h)
  | N_TiffStack =>
      negb (tifffile_available h) && negb (libtiff_available h)
      && negb (PIL_available h)
  | N_Bioformats => negb (bioformats_importable h && bioformats_available h)
  | N_ND2_Reader => negb (pims_nd2_importable h)
  end.

(** The dependency the source names for each optional backend. *)
Definition dependency (b : backend_name) : string :=
  match b with
  | N_Video => "PyAV and/or PIL/Pillow"
  | N_TiffStack_tifffile => "tifffile"
  | N_TiffStack_libtiff => "libtiff"
  | N_TiffStack_pil => "PIL or Pillow"
  | N_TiffStack => "tifffile, libtiff, or PIL/Pillow"
  | N_Bioformats => "JPype"
  | N_ND2_Reader => "pims_nd2"
  end.

(** [pims.image_sequence.ImageSequence] is imported by the module and
    defined elsewhere: an instance is represented by the arguments it was
    built from. *)
Record ImageSequence : Type := mk_ImageSequence {
  path_spec : string;
  is_kwargs : dict
}.

(** What the module calls outside itself: [glob.glob], [imageio.get_reader]
    and the [ImageSequence] constructor.  [exists_path] is the file system's
    answer to whether a literal path exists. *)
Record Env : Type := mk_Env {
  glob : string -> list string;
  exists_path : string -> bool;
  get_reader : string -> dict -> result Reader;
  new_ImageSequence : string -> dict -> result ImageSequence
}.

Module ImageIOReader.

Record t : Type := mk {
  reader : Reader;
  filename : string;
  _len : Z;
  _shape : list Z;
  _dtype : string
}.

Definition set_reader (self : t) (rd : Reader) : t :=
  mk rd (filename self) (_len self) (_shape self) (_dtype self).

Definition set_len (n : Z) (self : t) : t :=
  mk (reader self) (filename self) n (_shape self) (_dtype self).

Definition set_shape (sh : list Z) (self : t) : t :=
  mk (reader self) (filename self) (_len self) sh (_dtype self).

Definition set_dtype (dt : string) (self : t) : t :=
  mk (reader self) (filename self) (_len self) (_shape self) dt.

(** A call of a method of [self.reader]. *)
Definition on_reader {A} (m : M Reader A) : M t A := zoom reader set_reader m.

Definition get_frame (i : Z) : M t Frame :=
  frame ← on_reader (get_data i);
  mret (mk_Frame (array_data frame) i (meta frame)).

(** The constructor.  The attributes assigned later in the body hold
    placeholders until then; none is read before its assignment. *)
Definition __init__ (env : Env) (fname : string) (kwargs : dict) : result t :=
  match get_reader env fname kwargs with
  | Raise e => Raise e
  | Ok rd =>
      let body : M t unit :=
        n ← on_reader get_length;
        modify (set_len n);;
        first_frame ← get_frame 0;
        modify (set_shape (shape (frame_data first_frame)));;
        modify (set_dtype (dtype (frame_data first_frame))) in
      match body (mk rd fname 0 [] "") with
      | (Ok _, self) => Ok self
      | (Raise e, _) => Raise e
      end
  end.

Definition get_metadata : M t dict := on_reader get_meta_data.

Definition __len__ : M t Z := gets _len.

(** The body of the generator [__iter__], run to its end: the frames it
    yields, the exception that ended it if one did, and the receiver.  A
    [StopIteration] that [next(iterable)] raises inside the body ends the
    generator as if it had returned: the module is written for Python 2
    and for Python 3 before 3.7 (it imports [six] and [__future__]), where
    that is what a generator does; any other exception leaves it. *)
Fixpoint iter_loop (idxs : list Z) (iterable : Z) (self : t)
  : list Frame * option exn * t :=
  match idxs with
  | [] => ([], None, self)
  | i :: rest =>
      match on_reader (next iterable) self with
      | (Raise StopIteration, self') => ([], None, self')
      | (Raise e, self') => ([], Some e, self')
      | (Ok (frame, iterable'), self') =>
          let '(frames, ending, self'') := iter_loop rest iterable' self' in
          (mk_Frame (array_data frame) i (meta frame) :: frames, ending, self'')
      end
  end.

Definition __iter__ (self : t) : list Frame * option exn * t :=
  match on_reader iter_data self with
  | (Raise e, self') => ([], Some e, self')
  | (Ok iterable, self') => iter_loop (seqZ 0 (_len self')) iterable self'
  end.

Definition frame_shape : M t (list Z) := gets _shape.

Definition pixel_type : M t string := gets _dtype.

Definition close : M t unit := on_reader imageio.close.

(** Indexing, inherited from [FramesSequence]. *)
Definition __getitem__ : Z -> M t Frame :=
  base_frames.__getitem__ t __len__ get_frame.

Definition get_range : list Z -> list (M t Frame) :=
  base_frames.get_range t __len__ get_frame.

End ImageIOReader.

(** What [open] hands back. *)
Inductive Opened : Type :=
| OpenedImageSequence (s : ImageSequence)
| OpenedImageIOReader (r : ImageIOReader.t).

Definition open (env : Env) (sequence : string) (kwargs : dict) : result Opened :=
  let files := glob env sequence in
  if Z.of_nat (length files) >? 1
  then rmap OpenedImageSequence (new_ImageSequence env sequence kwargs)
  else rmap OpenedImageIOReader (ImageIOReader.__init__ env sequence kwargs).

End api.

(** ** Lazy pipelines *)

Module slicerator.

(** A per-frame transform: a function from a frame to a new frame. *)
Definition Transform : Type := Frame -> Frame.

(** Modelled from the spec: the decorator [pipeline] (it comes from
    slicerator and is imported through [pims]; not part of the sources),
    the pipeline composer of the specification.  [pipeline(func)(upstream)]
    is a node that keeps a reference to its immediate upstream and the
    transform; indexing it first obtains the frame from upstream and then
    applies the transform.  [Root] is the reader at the root of the chain,
    which every node of the chain shares.  A slot that holds [None] instead
    of a function cannot be called. *)
Inductive Seq : Type :=
| Root
| Piped (func : option Transform) (upstream : Seq).

Definition pipeline (func : option Transform) (upstream : Seq) : Seq :=
  Piped func upstream.

Definition apply {S} (func : option Transform) (image : Frame) : M S Frame :=
  match func with
  | Some f => mret (f image)
  | None => raise TypeError
  end.

Section Getitem.

Variable Self : Type.
Variable root_getitem : Z -> M Self Frame.

Fixpoint getitem (s : Seq) (i : Z) : M Self Frame :=
  match s with
  | Root => root_getitem i
  | Piped func upstream => image ← getitem upstream i; apply func image
  end.

End Getitem.

End slicerator.

(** ** viewer.py *)

Module viewer.

Import slicerator.

(** The table [dtype_range], keyed by the name of the numpy scalar type;
    [np.bool_] and [np.bool8] are one key, [False] and [True] are 0 and
    1. *)
Definition dtype_range : gmap string (Z * Z) :=
  list_to_map
    [("bool", (0, 1));
     ("uint8", (0, 255));
     ("uint16", (0, 65535));
     ("int8", (-128, 127));
     ("int16", (-32768, 32767));
     ("int64", (- 2 ^ 63, 2 ^ 63 - 1));
     ("uint64", (0, 2 ^ 64 - 1));
     ("int32", (- 2 ^ 31, 2 ^ 31 - 1));
     ("uint32", (0, 2 ^ 32 - 1));
     ("float32", (-1, 1));
     ("float64", (-1, 1))].

(** [image.min()]: [ValueError] on an array without elements. *)
Definition array_min (image : ndarray) : result Z :=
  match pixels image with
  | [] => Raise ValueError
  | p :: ps => Ok (fold_left Z.min ps p)
  end.

(** The colour range that the [image] setter computes for [set_clim]: the
    range of the image's dtype, its lower end raised to 0 when it is
    negative and the image's minimum is not.  [min] is only taken when the
    lower end is negative.  Whether this raises depends on the dtype and
    on whether the image has an element, not on the elements' values; the
    range itself is the source's for the elements that [ndarray] holds. *)
Definition clim (image : ndarray) : result (Z * Z) :=
  match dtype_range !! dtype image with
  | None => Raise (KeyError (dtype image))
  | Some (lo, hi) =>
      if lo <? 0 then
        match array_min image with
        | Raise e => Raise e
        | Ok m => if m >=? 0 then Ok (0, hi) else Ok (lo, hi)
        end
      else Ok (lo, hi)
  end.

Module Viewer.

(** The attributes of a [Viewer] that the modelled methods read or assign;
    the widgets and the canvas are left out.  [reader] is the single-file
    reader that [pims.open] returns; [_img] is the image on display;
    [slider_val] is [self.slider.val]. *)
Record t : Type := mk {
  pipelines : list (option Transform);
  index : Z;
  reader : api.ImageIOReader.t;
  original_image : Frame;
  _img : Frame;
  slider_val : Z
}.

Definition set_pipelines (ps : list (option Transform)) (self : t) : t :=
  mk ps (index self) (reader self) (original_image self) (_img self) (slider_val self).

Definition set_index (i : Z) (self : t) : t :=
  mk (pipelines self) i (reader self) (original_image self) (_img self) (slider_val self).

Definition set_reader (self : t) (r : api.ImageIOReader.t) : t :=
  mk (pipelines self) (index self) r (original_image self) (_img self) (slider_val self).

Definition set_original_image (im : Frame) (self : t) : t :=
  mk (pipelines self) (index self) (reader self) im (_img self) (slider_val self).

Definition set_image (im : Frame) (self : t) : t :=
  mk (pipelines self) (index self) (reader self) (original_image self) im (slider_val self).

Definition set_slider_val (i : Z) (self : t) : t :=
  mk (pipelines self) (index self) (reader self) (original_image self) (_img self) i.

(** A call of a method of [self.reader]. *)
Definition on_reader {A} (m : M api.ImageIOReader.t A) : M t A :=
  zoom reader set_reader m.

(** [image.copy()]: an equal array of its own. *)
Definition copy (image : Frame) : Frame := image.

(** [int(round(index))] for an index that is an integer. *)
Definition int_round (index : Z) : Z := index.

(** The loop [for func in self.pipelines: image = func(image)]. *)
Fixpoint run_pipelines (funcs : list (option Transform)) (image : Frame) : M t Frame :=
  match funcs with
  | [] => mret image
  | func :: rest => image' ← apply func image; run_pipelines rest image'
  end.

(** The setter of the [image] property, run by [self.image = image]: it
    stores the image first, then unpacks the first two entries of its
    shape and computes its colour range, and either step may raise.  The
    calls that draw on the axes and the canvas are left out. *)
Definition image_setter (image : Frame) : M t unit :=
  modify (set_image image);;
  match shape (frame_data image) with
  | _ :: _ :: _ =>
      match clim (frame_data image) with
      | Ok _ => mret tt
      | Raise e => raise e
      end
  | _ => raise ValueError
  end.

Definition update_image : M t unit :=
  original ← gets original_image;
  funcs ← gets pipelines;
  image ← run_pipelines funcs (copy original);
  image_setter image.

(** [self.pipelines[index] = func]: assignment to a list slot, which
    raises [IndexError] outside [[-len, len)]. *)
Definition update_pipeline (index : Z) (func : Transform) : M t unit :=
  funcs ← gets pipelines;
  let n := Z.of_nat (length funcs) in
  if (- n <=? index) && (index <? n) then
    let k := Z.to_nat (if index <? 0 then index + n else index) in
    modify (set_pipelines (<[k := Some func]> funcs));;
    update_image
  else raise IndexError.

(** [viewer += plugin], as far as the pipeline list goes: [attach] takes
    the next index, appends an empty slot, and [filter_image] emits
    [pipeline_changed], which is connected to [update_pipeline].  Returns
    the plugin's [pipeline_index]. *)
Definition __add__ (image_filter : Transform) : M t Z :=
  funcs ← gets pipelines;
  let pipeline_index := Z.of_nat (length funcs) in
  modify (set_pipelines (funcs ++ [None]));;
  update_pipeline pipeline_index image_filter;;
  mret pipeline_index.

Definition update_index (index : Z) : M t unit :=
  n ← on_reader api.ImageIOReader.__len__;
  let index := Z.min (Z.max (int_round index) 0) (n - 1) in
  current ← gets Viewer.index;
  if index =? current then mret tt
  else
    modify (set_index index);;
    modify (set_slider_val index);;
    i ← gets Viewer.index;
    image ← on_reader (api.ImageIOReader.__getitem__ i);
    modify (set_original_image image);;
    update_image.

(** The list that [show] builds and returns: the reader, then one pipeline
    node per registered transform, each over the previous entry. *)
Fixpoint show_loop (funcs : list (option Transform)) (previous : Seq) : list Seq :=
  match funcs with
  | [] => []
  | func :: rest =>
      let node := pipeline func previous in
      node :: show_loop rest node
  end.

Definition show (self : t) : list Seq :=
  Root :: show_loop (pipelines self) Root.

(** Indexing an entry of that list; its root is [self.reader]. *)
Definition result_getitem (s : Seq) (i : Z) : M t Frame :=
  on_reader (getitem api.ImageIOReader.t api.ImageIOReader.__getitem__ s i).

End Viewer.

End viewer.

(** ** The lifetime of a facade, and sample data *)

Module facts.

Import imageio api slicerator.

(** One public operation on a facade. *)
Inductive step : ImageIOReader.t -> ImageIOReader.t -> Prop :=
| step_get_frame i self : step self (snd (ImageIOReader.get_frame i self))
| step_getitem i self : step self (snd (ImageIOReader.__getitem__ i self))
| step_iter self : step self (snd (ImageIOReader.__iter__ self))
| step_len self : step self (snd (ImageIOReader.__len__ self))
| step_metadata self : step self (snd (ImageIOReader.get_metadata self))
| step_frame_shape self : step self (snd (ImageIOReader.frame_shape self))
| step_pixel_type self : step self (snd (ImageIOReader.pixel_type self))
| step_close self : step self (snd (ImageIOReader.close self)).

(** The states a facade goes through after [self]. *)
Definition lifetime : ImageIOReader.t -> ImageIOReader.t -> Prop := rtc step.

(** A facade over a valid backend: open, with the length it cached at
    construction, and every frame decodable. *)
Definition valid (self : ImageIOReader.t) : Prop :=
  rd_closed (ImageIOReader.reader self) = false
  /\ ImageIOReader._len self
     = Z.of_nat (length (rd_frames (ImageIOReader.reader self)))
  /\ Forall (fun r => is_ok r = true) (rd_frames (ImageIOReader.reader self)).

(** What every operation keeps of the reader: its frames and metadata, a
    closed reader stays closed, and requests are only ever added to the
    log. *)
Definition rd_evolves (rd rd' : Reader) : Prop :=
  rd_frames rd' = rd_frames rd
  /\ rd_meta rd' = rd_meta rd
  /\ (rd_closed rd = true -> rd_closed rd' = true)
  /\ exists new, rd_reads rd' = (rd_reads rd ++ new)%list.

(** What every operation keeps of the facade: the cached attributes, and
    the reader up to [rd_evolves]. *)
Definition evolves (self self' : ImageIOReader.t) : Prop :=
  rd_evolves (ImageIOReader.reader self) (ImageIOReader.reader self')
  /\ ImageIOReader.filename self' = ImageIOReader.filename self
  /\ ImageIOReader._len self' = ImageIOReader._len self
  /\ ImageIOReader._shape self' = ImageIOReader._shape self
  /\ ImageIOReader._dtype self' = ImageIOReader._dtype self.

(** The frame the facade makes of the array decoded for index [i]. *)
Definition as_frame (i : Z) (a : Array) : Frame :=
  mk_Frame (array_data a) i (meta a).

(** [needle] occurs in [text]. *)
Definition includes (text needle : string) : Prop :=
  exists before after, text = before ++ needle ++ after.

(** A stub backend with three synthetic 2x2 frames. *)
Definition array0 : Array :=
  mk_Array (mk_ndarray [0; 1; 2; 3] [2; 2] "uint8") {[ "stamp" := "t0" ]}.

Definition array1 : Array :=
  mk_Array (mk_ndarray [10; 11; 12; 13] [2; 2] "uint8") {[ "stamp" := "t1" ]}.

Definition array2 : Array :=
  mk_Array (mk_ndarray [20; 21; 22; 23] [2; 2] "uint8") {[ "stamp" := "t2" ]}.

Definition stub_reader : Reader :=
  mk_Reader [Ok array0; Ok array1; Ok array2] {[ "fps" := "30" ]} false [].

(** A host where ["frames/*.png"] matches two files, ["seq.stub"] is one
    file of the stub format, and ["http://example.org/seq.stub"] names
    no file but a web address that ImageIO opens. *)
Definition stub_env : Env :=
  mk_Env
    (fun pattern =>
       if String.eqb pattern "frames/*.png" then ["frames/a.png"; "frames/b.png"]
       else if String.eqb pattern "seq.stub" then ["seq.stub"]
       else [])
    (fun path =>
       String.eqb path "seq.stub" || String.eqb path "frames/a.png"
       || String.eqb path "frames/b.png")
    (fun fname _ =>
       if String.eqb fname "seq.stub" || String.eqb fname "http://example.org/seq.stub"
       then Ok stub_reader
       else Raise UnsupportedFormat)
    (fun spec kwargs => Ok (mk_ImageSequence spec kwargs)).

(** The facade that the constructor builds on the stub. *)
Definition stub_facade : ImageIOReader.t :=
  ImageIOReader.mk
    (mk_Reader (rd_frames stub_reader) (rd_meta stub_reader) false [0])
    "seq.stub" 3 [2; 2] "uint8".

(** A facade whose cached length, 5, is more than the 3 frames the stub's
    iterator has to give. *)
Definition short_facade : ImageIOReader.t :=
  ImageIOReader.mk
    (mk_Reader (rd_frames stub_reader) (rd_meta stub_reader) false [0])
    "seq.stub" 5 [2; 2] "uint8".

(** A host with no optional decoding library. *)
Definition bare_host : Host :=
  mk_Host false false false false false false false false (fun _ => []).










(** Two transforms: inverting 8-bit pixels, and adding one to each. *)
Definition invert : Transform := fun f =>
  mk_Frame
    (mk_ndarray (map (fun p => 255 - p) (pixels (frame_data f)))
       (shape (frame_data f)) (dtype (frame_data f)))
    (frame_no f) (metadata f).

Definition brighten : Transform := fun f =>
  mk_Frame
    (mk_ndarray (map (fun p => p + 1) (pixels (frame_data f)))
       (shape (frame_data f)) (dtype (frame_data f)))
    (frame_no f) (metadata f).

Definition frame0 : Frame := mk_Frame (array_data array0) 0 (meta array0).

(** An image that the viewer's [image] setter takes without raising: it
    has at least two dimensions, its scalar type is listed in
    [dtype_range], and if the range of that type starts below 0 it has at
    least one element. *)
Definition displayable (image : Frame) : bool :=
  (2 <=? length (shape (frame_data image)))%nat
  && match viewer.dtype_range !! dtype (frame_data image) with
     | Some (lo, _) =>
         (0 <=? lo) || negb (bool_decide (pixels (frame_data image) = []))
     | None => false
     end.

(** Two transforms whose images the setter refuses: a conversion to a
    scalar type that [dtype_range] does not list, and a crop to an empty
    signed image. *)
Definition to_float16 : Transform := fun f =>
  mk_Frame
    (mk_ndarray (pixels (frame_data f)) (shape (frame_data f)) "float16")
    (frame_no f) (metadata f).

Definition crop_to_nothing : Transform := fun f =>
  mk_Frame (mk_ndarray [] [0; 0] "int16") (frame_no f) (metadata f).

(** The scalar types of [dtype_range] whose arrays hold fractions and
    NaN. *)
Definition float_dtype (dt : string) : bool :=
  String.eqb dt "float32" || String.eqb dt "float64".

(** A viewer showing frame 0 of the stub with no plugin attached. *)
Definition stub_viewer : viewer.Viewer.t :=
  viewer.Viewer.mk [] 0 stub_facade frame0 frame0 0.

End facts.

(** ** viewer.py: plugins and blitting *)

Module gui.

Import imageio api slicerator viewer.

(** Exceptions of the display code: a missing dictionary key, and
    [ValueError] ([list.remove] of an absent item). *)
Inductive raised : Type :=
| KeyError (key : string)
| ValueError.

Inductive outcome (A : Type) : Type :=
| Returned (a : A)
| Raised (e : raised).

Arguments Returned {A} a.
Arguments Raised {A} e.

(** Truth value of the outcome of a predicate method; an exception is no
    answer. *)
Definition truthy_result (r : result (option bool)) : bool :=
  match r with Ok v => truthy v | Raise _ => false end.

(** [del l[index]]: raises [IndexError] outside [[-len, len)]. *)
Definition del_item {A} (index : Z) (l : list A) : result (list A) :=
  let n := Z.of_nat (length l) in
  if (- n <=? index) && (index <? n)
  then Ok (delete (Z.to_nat (if index <? 0 then index + n else index)) l)
  else Raise IndexError.

(** [PipelinePlugin.cancel_pipeline], as far as the viewer's pipeline list
    and image go: the plugin's slot is deleted and the image recomputed. *)
Definition cancel_pipeline (pipeline_index : option Z) : M Viewer.t unit :=
  match pipeline_index with
  | Some index =>
      funcs ← gets Viewer.pipelines;
      match del_item index funcs with
      | Ok funcs' => modify (Viewer.set_pipelines funcs')
      | Raise e => raise e
      end
  | None => mret tt
  end;;
  Viewer.update_image.

(** Plugins added one after the other: [viewer += p1; viewer += p2; ...],
    each with its filter. *)
Fixpoint add_all (filters : list Transform) : M Viewer.t unit :=
  match filters with
  | [] => mret tt
  | image_filter :: rest => Viewer.__add__ image_filter;; add_all rest
  end.

Module BlitManager.

(** What the manager asks of the canvas and the axes. *)
Inductive canvas_call : Type :=
| restore_region (region : Z)
| draw_artist (artist : Z)
| blit
| draw_idle.

(** Artists and saved regions are named by numbers; [calls] is the log of
    the canvas calls made so far, oldest first. *)
Record t : Type := mk {
  artists : list Z;
  background : option Z;
  calls : list canvas_call
}.

Definition log (c : list canvas_call) (self : t) : t :=
  mk (artists self) (background self) (calls self ++ c).

Definition draw_artists (self : t) : t :=
  log (map draw_artist (artists self)) self.

Definition redraw (self : t) : t :=
  match background self with
  | Some region => log [blit] (draw_artists (log [restore_region region] self))
  | None => log [draw_idle] self
  end.

Definition add_artists (new : list Z) (self : t) : t :=
  redraw (mk (artists self ++ new) (background self) (calls self)).

(** [l.remove(x)]: drops the first occurrence, [ValueError] if there is
    none. *)
Fixpoint list_remove (x : Z) (l : list Z) : outcome (list Z) :=
  match l with
  | [] => Raised ValueError
  | y :: l' =>
      if x =? y then Returned l'
      else match list_remove x l' with
           | Returned r => Returned (y :: r)
           | Raised e => Raised e
           end
  end.

(** The loop of [remove_artists]; removals made before a failing one
    persist. *)
Fixpoint remove_artists (gone : list Z) (self : t) : outcome unit * t :=
  match gone with
  | [] => (Returned tt, self)
  | artist :: rest =>
      match list_remove artist (artists self) with
      | Returned l => remove_artists rest (mk l (background self) (calls self))
      | Raised e => (Raised e, self)
      end
  end.

(** [on_draw_event]: [region] is what [copy_from_bbox] returned. *)
Definition on_draw_event (region : Z) (self : t) : t :=
  draw_artists (mk (artists self) (Some region) (calls self)).

End BlitManager.

Module PipelinePlugin.

(** A widget, as far as the plugin looks at it: its identity, its name and
    [ptype], and its [val] attribute when it has one. *)
Record Widget : Type := mk_Widget {
  wid : Z;
  wname : string;
  ptype : string;
  val : option Z
}.

(** The bound methods a widget's [callback] is set to. *)
Inductive Callback : Type :=
| filter_image
| update_plugin.

(** What [_get_value] returns: the parameter itself, or its [val]. *)
Inductive Value : Type :=
| the_param (w : Widget)
| the_val (v : Z).

(** The plugin's attributes that [add_widget] reads or assigns.  [layout]
    lists the [addWidget(widget, row, 0)] calls; the attributes assigned on
    widgets are kept by widget identity: [callbacks] holds
    [widget.callback], [owned] the widgets whose [plugin] is this one. *)
Record t : Type := mk {
  keyword_arguments : gmap string Widget;
  arguments : list Widget;
  row : Z;
  layout : list (Widget * Z);
  callbacks : gmap Z Callback;
  owned : list Z
}.

(** The attributes as [__init__] leaves them. *)
Definition new : t := mk ∅ [] 0 [] ∅ [].

(** [name.replace(' ', '_')]. *)
Fixpoint replace_spaces (s : string) : string :=
  match s with
  | EmptyString => EmptyString
  | String c s' =>
      String (if Ascii.eqb c " " then "_"%char else c) (replace_spaces s')
  end.

Definition add_widget (widget : Widget) (self : t) : t :=
  let self1 :=
    if String.eqb (ptype widget) "kwarg" then
      let name := replace_spaces (wname widget) in
      mk (<[name := widget]> (keyword_arguments self)) (arguments self)
        (row self) (layout self)
        (<[wid widget := filter_image]> (callbacks self)) (owned self)
    else if String.eqb (ptype widget) "arg" then
      mk (keyword_arguments self) (arguments self ++ [widget])
        (row self) (layout self)
        (<[wid widget := filter_image]> (callbacks self)) (owned self)
    else if String.eqb (ptype widget) "plugin" then
      mk (keyword_arguments self) (arguments self)
        (row self) (layout self)
        (<[wid widget := update_plugin]> (callbacks self)) (owned self)
    else self in
  mk (keyword_arguments self1) (arguments self1)
    (row self1 + 1) (layout self1 ++ [(widget, row self1)])
    (callbacks self1) (owned self1 ++ [wid widget]).

(** [plugin += w1; plugin += w2; ...]. *)
Definition add_widgets (widgets : list Widget) (self : t) : t :=
  fold_left (fun p w => add_widget w p) widgets self.

Definition _get_value (param : Widget) : Value :=
  match val param with
  | Some v => the_val v
  | None => the_param param
  end.

(** The keyword arguments [filter_image] passes to the image filter. *)
Definition filter_kwargs (self : t) : gmap string Value :=
  _get_value <$> keyword_arguments self.

End PipelinePlugin.

(** A viewer on the stub whose reader has been closed. *)
Definition closed_viewer : Viewer.t :=
  Viewer.mk [] 0
    (ImageIOReader.mk
       (mk_Reader (rd_frames facts.stub_reader) (rd_meta facts.stub_reader) true [0])
       "seq.stub" 3 [2; 2] "uint8")
    facts.frame0 facts.frame0 0.

End gui.

Import imageio api slicerator facts.
Import viewer.
Import gui.

(** * Properties *)

(** ** Strings *)


Lemma append_cons_l (c : ascii) (s1 s2 : string) :
  String c s1 ++ s2 = String c (s1 ++ s2).
Proof. reflexivity. Qed.




Lemma char_in_app (c : ascii) (s1 s2 : string) :
  char_in c (s1 ++ s2) = char_in c s1 || char_in c s2.
Proof.
  induction s1 as [|d s1 IH]; [reflexivity|].
  rewrite append_cons_l. cbn [char_in]. rewrite IH. apply orb_assoc.
Qed.

(** ** Letter case *)










(** ** Format probing *)




(** ** Optional backends *)

Lemma raiser_message_includes (requirement : string) :
  includes ("This reader requires " ++ requirement ++ ".") requirement.
Proof. exists "This reader requires ", ".". reflexivity. Qed.

Lemma missing_backend_binding (h : Host) (b : backend_name) :
  library_missing h b = true ->
  binding (module_body h) b = raiser (dependency b).
Proof.
  destruct h as [pi pa tf lt pil bi ba nd ce].
  destruct b; unfold library_missing, module_body, binding; cbn;
    intros Hmiss;
    repeat match goal with
           | H : negb _ = true |- _ => apply negb_true_iff in H
           | H : _ && _ = true |- _ => apply andb_true_iff in H; destruct H
           end;
    subst;
    try match goal with H : _ && _ = false |- _ => rewrite H end;
    repeat match goal with |- context [if ?c then _ else _] => destruct c end;
    reflexivity.
Qed.

(** C4.  When the decoding library behind a reader name is missing on the
    host, the module body binds the name to the [raiser] made for that
    dependency; called with any arguments it raises [ImportError] (the
    specification's BackendUnavailable) with a message that includes the
    dependency's name, and so never returns a reader. *)
Theorem missing_backend_constructor_raises
  (Backend : Type) (construct : string -> Args -> result Backend)
  (h : Host) (b : backend_name) :
  library_missing h b = true ->
  binding (module_body h) b = not_available (dependency b)
  /\ forall args : Args,
      (exists msg,
          call Backend construct (binding (module_body h) b) args
          = Raise (ImportError msg)
          /\ includes msg (dependency b))
      /\ is_ok (call Backend construct (binding (module_body h) b) args) = false.
Proof.
  intros Hmiss. rewrite (missing_backend_binding h b Hmiss).
  split; [reflexivity|]. intros args. split.
  - eexists. split; [reflexivity|]. apply raiser_message_includes.
  - reflexivity.
Qed.

Lemma missing_backend_constructor_raises_witness :
  library_missing bare_host N_TiffStack = true
  /\ binding (module_body bare_host) N_TiffStack
     = not_available "tifffile, libtiff, or PIL/Pillow"
  /\ call Frame (fun _ _ => Ok frame0) (binding (module_body bare_host) N_TiffStack)
       (mk_Args ["stack.tif"] ∅)
     = Raise (ImportError "This reader requires tifffile, libtiff, or PIL/Pillow.").
Proof.
  split; [reflexivity|].
  destruct (missing_backend_constructor_raises Frame (fun _ _ => Ok frame0)
              bare_host N_TiffStack eq_refl) as [Hbind _].
  split; [exact Hbind | reflexivity].
Defined.

(** ** Path resolution *)

(** C1.  When the glob expansion of the path expression has more than one
    file, [open] returns what the [ImageSequence] constructor gives for the
    expression; with at most one match it returns what the [ImageIOReader]
    constructor gives, which is never an [ImageSequence]. *)
Theorem open_dispatches_on_match_count
  (env : Env) (sequence : string) (kwargs : dict) :
  ((length (glob env sequence) > 1)%nat ->
   open env sequence kwargs
   = rmap OpenedImageSequence (new_ImageSequence env sequence kwargs))
  /\ ((length (glob env sequence) <= 1)%nat ->
      open env sequence kwargs
      = rmap OpenedImageIOReader (ImageIOReader.__init__ env sequence kwargs)
      /\ forall s, open env sequence kwargs <> Ok (OpenedImageSequence s)).
Proof.
  unfold open. split; intros Hn.
  - destruct (Z.gtb_spec (Z.of_nat (length (glob env sequence))) 1); [reflexivity | lia].
  - destruct (Z.gtb_spec (Z.of_nat (length (glob env sequence))) 1); [lia|].
    split; [reflexivity|]. intros s.
    destruct (ImageIOReader.__init__ env sequence kwargs); simpl; congruence.
Qed.

Lemma open_dispatches_on_match_count_witness :
  open stub_env "frames/*.png" ∅
  = Ok (OpenedImageSequence (mk_ImageSequence "frames/*.png" ∅))
  /\ open stub_env "seq.stub" ∅ = Ok (OpenedImageIOReader stub_facade).
Proof.
  split.
  - exact (proj1 (open_dispatches_on_match_count stub_env "frames/*.png" ∅)
             ltac:(simpl; lia)).
  - rewrite (proj1 (proj2 (open_dispatches_on_match_count stub_env "seq.stub" ∅)
                      ltac:(simpl; lia))).
    reflexivity.
Defined.

(** C2, as stated, fails: an expression that matches no file and names no
    existing path is still handed to the [ImageIOReader] constructor, and
    [open] returns the reader that ImageIO opened for it, after the probe
    of frame 0. *)
Lemma open_unmatched_expression_reaches_imageio :
  glob stub_env "http://example.org/seq.stub" = []
  /\ exists_path stub_env "http://example.org/seq.stub" = false
  /\ exists r,
      open stub_env "http://example.org/seq.stub" ∅ = Ok (OpenedImageIOReader r)
      /\ get_reader stub_env "http://example.org/seq.stub" ∅ = Ok stub_reader
      /\ rd_frames (ImageIOReader.reader r) = rd_frames stub_reader
      /\ rd_reads (ImageIOReader.reader r) = [0].
Proof.
  split; [reflexivity|]. split; [reflexivity|].
  eexists. split; [reflexivity|]. split; [reflexivity|]. split; reflexivity.
Qed.

(** C2, amended.  When the glob expansion matches no file, [open] makes no
    check of its own and raises no error of its own: its outcome is the
    outcome of the [ImageIOReader] constructor on the expression, so it
    fails exactly when that constructor fails, with the same exception, and
    in particular with the exception [get_reader] raised if it raised one. *)
Theorem open_without_match_delegates
  (env : Env) (sequence : string) (kwargs : dict) :
  glob env sequence = [] ->
  open env sequence kwargs
  = rmap OpenedImageIOReader (ImageIOReader.__init__ env sequence kwargs)
  /\ (forall e,
         open env sequence kwargs = Raise e
         <-> ImageIOReader.__init__ env sequence kwargs = Raise e)
  /\ (forall e,
         get_reader env sequence kwargs = Raise e ->
         open env sequence kwargs = Raise e).
Proof.
  intros Hglob.
  assert (Hopen : open env sequence kwargs
                  = rmap OpenedImageIOReader
                      (ImageIOReader.__init__ env sequence kwargs)).
  { unfold open. rewrite Hglob. reflexivity. }
  split; [exact Hopen|]. rewrite Hopen. split.
  - intros e. destruct (ImageIOReader.__init__ env sequence kwargs); simpl;
      split; congruence.
  - intros e He. unfold ImageIOReader.__init__. rewrite He. reflexivity.
Qed.

Lemma open_without_match_delegates_witness :
  glob stub_env "missing.xyz" = []
  /\ open stub_env "missing.xyz" ∅ = Raise UnsupportedFormat.
Proof.
  split; [reflexivity|].
  exact (proj2 (proj2 (open_without_match_delegates stub_env "missing.xyz" ∅ eq_refl))
           UnsupportedFormat eq_refl).
Defined.

(** ** The reader and the facade *)

Lemma rd_evolves_refl (rd : Reader) : rd_evolves rd rd.
Proof.
  repeat split; auto. exists []. symmetry. apply app_nil_r.
Qed.

Lemma rd_evolves_trans (r1 r2 r3 : Reader) :
  rd_evolves r1 r2 -> rd_evolves r2 r3 -> rd_evolves r1 r3.
Proof.
  intros (Hf & Hm & Hc & n1 & Hr) (Hf' & Hm' & Hc' & n2 & Hr').
  repeat split; try congruence; auto.
  exists (n1 ++ n2)%list. rewrite Hr', Hr. symmetry. apply app_assoc.
Qed.


Lemma get_data_open (i : Z) (rd : Reader) :
  rd_closed rd = false -> get_data i rd = (decode rd i, log_read i rd).
Proof. intros H. unfold get_data. rewrite H. reflexivity. Qed.

Lemma get_data_evolves (i : Z) (rd : Reader) :
  rd_evolves rd (snd (get_data i rd))
  /\ rd_closed (snd (get_data i rd)) = rd_closed rd.
Proof.
  unfold get_data. destruct (rd_closed rd) eqn:Hc; simpl.
  - split; [apply rd_evolves_refl | exact Hc].
  - split; [|exact Hc]. repeat split; auto. exists [i]. reflexivity.
Qed.

Lemma decode_lookup (rd : Reader) (i : Z) (a : Array) :
  decode rd i = Ok a
  <-> 0 <= i /\ rd_frames rd !! Z.to_nat i = Some (Ok a).
Proof.
  unfold decode. destruct (Z.ltb_spec i 0).
  - split; [discriminate | lia].
  - destruct (rd_frames rd !! Z.to_nat i) as [r|]; split.
    + intros ->. auto.
    + intros [_ H']. congruence.
    + discriminate.
    + intros [_ H']. discriminate.
Qed.

Lemma get_frame_eq (i : Z) (self : ImageIOReader.t) :
  ImageIOReader.get_frame i self
  = (rmap (as_frame i) (fst (get_data i (ImageIOReader.reader self))),
     ImageIOReader.set_reader self (snd (get_data i (ImageIOReader.reader self)))).
Proof.
  unfold ImageIOReader.get_frame, ImageIOReader.on_reader, zoom, mbind, M_bind.
  destruct (get_data i (ImageIOReader.reader self)) as [[a|e] rd']; reflexivity.
Qed.


Lemma get_frame_open (i : Z) (self : ImageIOReader.t) :
  rd_closed (ImageIOReader.reader self) = false ->
  ImageIOReader.get_frame i self
  = (rmap (as_frame i) (decode (ImageIOReader.reader self) i),
     ImageIOReader.set_reader self (log_read i (ImageIOReader.reader self))).
Proof. intros H. rewrite get_frame_eq, (get_data_open i _ H). reflexivity. Qed.

Lemma getitem_eq (i : Z) (self : ImageIOReader.t) :
  ImageIOReader.__getitem__ i self
  = if (- ImageIOReader._len self <=? i) && (i <? ImageIOReader._len self)
    then ImageIOReader.get_frame
           (if i <? 0 then i + ImageIOReader._len self else i) self
    else (Raise IndexError, self).
Proof.
  unfold ImageIOReader.__getitem__, base_frames.__getitem__, mbind, M_bind,
    ImageIOReader.__len__, gets.
  destruct ((- ImageIOReader._len self <=? i) && (i <? ImageIOReader._len self));
    reflexivity.
Qed.

Lemma getitem_in_range (i : Z) (self : ImageIOReader.t) :
  - ImageIOReader._len self <= i < ImageIOReader._len self ->
  ImageIOReader.__getitem__ i self
  = ImageIOReader.get_frame (i mod ImageIOReader._len self) self.
Proof.
  intros Hi. rewrite getitem_eq.
  destruct (Z.leb_spec (- ImageIOReader._len self) i); [|lia].
  destruct (Z.ltb_spec i (ImageIOReader._len self)); [|lia]. simpl.
  destruct (Z.ltb_spec i 0).
  - f_equal. apply Z.mod_unique with (q := -1); lia.
  - f_equal. symmetry. apply Z.mod_small. lia.
Qed.

Lemma getitem_out_of_range (i : Z) (self : ImageIOReader.t) :
  i < - ImageIOReader._len self \/ ImageIOReader._len self <= i ->
  ImageIOReader.__getitem__ i self = (Raise IndexError, self).
Proof.
  intros Hi. rewrite getitem_eq.
  destruct (Z.leb_spec (- ImageIOReader._len self) i);
    destruct (Z.ltb_spec i (ImageIOReader._len self)); simpl;
    try reflexivity; lia.
Qed.

Lemma evolves_refl (self : ImageIOReader.t) : evolves self self.
Proof. repeat split; auto. exists []. symmetry. apply app_nil_r. Qed.

Lemma evolves_trans (s1 s2 s3 : ImageIOReader.t) :
  evolves s1 s2 -> evolves s2 s3 -> evolves s1 s3.
Proof.
  intros (Hr & ? & ? & ? & ?) (Hr' & ? & ? & ? & ?).
  split; [exact (rd_evolves_trans _ _ _ Hr Hr')|]. repeat split; congruence.
Qed.

Lemma get_frame_evolves (i : Z) (self : ImageIOReader.t) :
  evolves self (snd (ImageIOReader.get_frame i self)).
Proof.
  rewrite get_frame_eq. simpl.
  split; [apply get_data_evolves | repeat split].
Qed.

Lemma getitem_evolves (i : Z) (self : ImageIOReader.t) :
  evolves self (snd (ImageIOReader.__getitem__ i self)).
Proof.
  rewrite getitem_eq.
  destruct ((- ImageIOReader._len self <=? i) && (i <? ImageIOReader._len self)).
  - apply get_frame_evolves.
  - apply evolves_refl.
Qed.

Lemma close_eq (self : ImageIOReader.t) :
  ImageIOReader.close self
  = (Ok tt,
     ImageIOReader.set_reader self
       (mk_Reader (rd_frames (ImageIOReader.reader self))
          (rd_meta (ImageIOReader.reader self)) true
          (rd_reads (ImageIOReader.reader self)))).
Proof. reflexivity. Qed.

Lemma close_evolves (self : ImageIOReader.t) :
  evolves self (snd (ImageIOReader.close self)).
Proof.
  rewrite close_eq. simpl. repeat split; auto.
  exists []. simpl. symmetry. apply app_nil_r.
Qed.

Lemma next_eq (it : Z) (self : ImageIOReader.t) :
  ImageIOReader.on_reader (next it) self
  = if Z.of_nat (length (rd_frames (ImageIOReader.reader self))) <=? it
    then (Raise StopIteration, self)
    else (rmap (fun a => (a, it + 1)) (fst (get_data it (ImageIOReader.reader self))),
          ImageIOReader.set_reader self (snd (get_data it (ImageIOReader.reader self)))).
Proof.
  unfold ImageIOReader.on_reader, zoom, next, mbind, M_bind, get_length, gets.
  destruct (Z.of_nat (length (rd_frames (ImageIOReader.reader self))) <=? it).
  - destruct self; reflexivity.
  - destruct (get_data it (ImageIOReader.reader self)) as [[a|e] rd']; reflexivity.
Qed.

Lemma next_evolves (it : Z) (self : ImageIOReader.t) :
  evolves self (snd (ImageIOReader.on_reader (next it) self)).
Proof.
  rewrite next_eq.
  destruct (Z.of_nat (length (rd_frames (ImageIOReader.reader self))) <=? it).
  - apply evolves_refl.
  - simpl. split; [apply get_data_evolves | repeat split].
Qed.

Lemma iter_loop_evolves (idxs : list Z) :
  forall (it : Z) (self : ImageIOReader.t),
    evolves self (snd (ImageIOReader.iter_loop idxs it self)).
Proof.
  induction idxs as [|i rest IH]; intros it self; simpl.
  - apply evolves_refl.
  - pose proof (next_evolves it self) as Hn.
    destruct (ImageIOReader.on_reader (next it) self) as [[[a it']|e] self1]; simpl in *.
    + specialize (IH it' self1).
      destruct (ImageIOReader.iter_loop rest it' self1) as [[fs en] self2]; simpl in *.
      exact (evolves_trans _ _ _ Hn IH).
    + destruct e; exact Hn.
Qed.

Lemma iter_evolves (self : ImageIOReader.t) :
  evolves self (snd (ImageIOReader.__iter__ self)).
Proof.
  unfold ImageIOReader.__iter__.
  replace (ImageIOReader.on_reader iter_data self) with (Ok 0, self)
    by (destruct self; reflexivity).
  apply iter_loop_evolves.
Qed.

Lemma step_evolves (self self' : ImageIOReader.t) :
  step self self' -> evolves self self'.
Proof.
  intros H. destruct H.
  - apply get_frame_evolves.
  - apply getitem_evolves.
  - apply iter_evolves.
  - apply evolves_refl.
  - destruct self; apply evolves_refl.
  - apply evolves_refl.
  - apply evolves_refl.
  - apply close_evolves.
Qed.

Lemma lifetime_evolves (self later : ImageIOReader.t) :
  lifetime self later -> evolves self later.
Proof.
  induction 1 as [|s1 s2 s3 Hstep _ IH].
  - apply evolves_refl.
  - exact (evolves_trans _ _ _ (step_evolves _ _ Hstep) IH).
Qed.

(** ** Construction and the cached probe *)

Lemma init_eq (env : Env) (fname : string) (kwargs : dict) (rd : Reader) :
  get_reader env fname kwargs = Ok rd ->
  ImageIOReader.__init__ env fname kwargs
  = match fst (get_data 0 rd) with
    | Ok a =>
        Ok (ImageIOReader.mk (snd (get_data 0 rd)) fname
              (Z.of_nat (length (rd_frames rd)))
              (shape (array_data a)) (dtype (array_data a)))
    | Raise e => Raise e
    end.
Proof.
  intros Hrd. unfold ImageIOReader.__init__. rewrite Hrd.
  unfold mbind, M_bind, ImageIOReader.on_reader, zoom, get_length, gets, modify.
  cbn -[get_data ImageIOReader.get_frame].
  rewrite get_frame_eq. cbn -[get_data].
  destruct (get_data 0 rd) as [[a|e] rd']; reflexivity.
Qed.

Lemma get_data_ok (i : Z) (rd : Reader) (a : Array) :
  fst (get_data i rd) = Ok a ->
  rd_closed rd = false /\ decode rd i = Ok a /\ snd (get_data i rd) = log_read i rd.
Proof.
  unfold get_data. destruct (rd_closed rd); simpl; [discriminate | auto].
Qed.

Lemma lookup_lt_length {A} (l : list A) (k : nat) (x : A) :
  l !! k = Some x -> (Z.of_nat k < Z.of_nat (length l)).
Proof. intros H. apply lookup_lt_Some in H. lia. Qed.

(** C5.  Given the reader that [get_reader] returns: if decoding frame 0
    fails the constructor fails with that exception; if it yields an array,
    the constructor returns a facade having asked the reader for frame 0
    and nothing else, and in every later state of that facade [frame_shape]
    and [pixel_type] return the probe's shape and dtype and leave the
    facade as it is (no request reaches the reader), and while the facade
    is open [get(0)] returns a frame whose shape and dtype are those. *)
Theorem construction_probes_frame_0_once
  (env : Env) (fname : string) (kwargs : dict) (rd : Reader) :
  get_reader env fname kwargs = Ok rd ->
  (forall e, fst (get_data 0 rd) = Raise e ->
             ImageIOReader.__init__ env fname kwargs = Raise e)
  /\ (forall a, fst (get_data 0 rd) = Ok a ->
        exists self,
          ImageIOReader.__init__ env fname kwargs = Ok self
          /\ rd_reads (ImageIOReader.reader self) = (rd_reads rd ++ [0])%list
          /\ forall later, lifetime self later ->
               ImageIOReader.frame_shape later = (Ok (shape (array_data a)), later)
               /\ ImageIOReader.pixel_type later = (Ok (dtype (array_data a)), later)
               /\ (rd_closed (ImageIOReader.reader later) = false ->
                   exists fr later',
                     ImageIOReader.__getitem__ 0 later = (Ok fr, later')
                     /\ shape (frame_data fr) = shape (array_data a)
                     /\ dtype (frame_data fr) = dtype (array_data a))).
Proof.
  intros Hrd. rewrite (init_eq env fname kwargs rd Hrd). split.
  - intros e He. rewrite He. reflexivity.
  - intros a Ha. rewrite Ha. eexists. split; [reflexivity|].
    destruct (get_data_ok 0 rd a Ha) as (Hopen & Hdec & Hsnd).
    split; [simpl; rewrite Hsnd; reflexivity|].
    intros later Hlife.
    destruct (lifetime_evolves _ _ Hlife) as ((Hf & _ & _ & _) & _ & Hlen & Hsh & Hdt).
    simpl in Hf, Hlen, Hsh, Hdt. rewrite Hsnd in Hf. simpl in Hf.
    unfold ImageIOReader.frame_shape, ImageIOReader.pixel_type, gets.
    rewrite Hsh, Hdt. split; [reflexivity|]. split; [reflexivity|].
    intros Hlater.
    apply decode_lookup in Hdec as [_ Hlk].
    pose proof (lookup_lt_length _ _ _ Hlk) as Hpos. simpl in Hpos.
    rewrite getitem_in_range by lia.
    rewrite Z.mod_0_l by lia.
    rewrite (get_frame_open 0 later Hlater).
    assert (Hd : decode (ImageIOReader.reader later) 0 = Ok a).
    { apply decode_lookup. split; [lia|]. rewrite Hf. exact Hlk. }
    rewrite Hd. simpl. eexists _, _. split; [reflexivity|]. split; reflexivity.
Qed.

Lemma construction_probes_frame_0_once_witness :
  get_reader stub_env "seq.stub" ∅ = Ok stub_reader
  /\ fst (get_data 0 stub_reader) = Ok array0
  /\ exists self,
      ImageIOReader.__init__ stub_env "seq.stub" ∅ = Ok self
      /\ rd_reads (ImageIOReader.reader self) = [0].
Proof.
  split; [reflexivity|]. split; [reflexivity|].
  destruct (proj2 (construction_probes_frame_0_once stub_env "seq.stub" ∅
                     stub_reader eq_refl) array0 eq_refl)
    as (self & Hinit & Hreads & _).
  exists self. split; [exact Hinit | exact Hreads].
Defined.

(** ** Indexing *)

Lemma valid_decode (self : ImageIOReader.t) (k : Z) :
  valid self ->
  0 <= k < ImageIOReader._len self ->
  exists a,
    rd_frames (ImageIOReader.reader self) !! Z.to_nat k = Some (Ok a)
    /\ decode (ImageIOReader.reader self) k = Ok a.
Proof.
  intros (_ & Hlen & Hall) Hk.
  destruct (lookup_lt_is_Some_2 (rd_frames (ImageIOReader.reader self)) (Z.to_nat k))
    as [r Hr]; [lia|].
  rewrite Forall_forall in Hall.
  assert (Hok : is_ok r = true).
  { apply Hall. eapply list_elem_of_lookup_2. exact Hr. }
  destruct r as [a|e]; [|discriminate].
  exists a. split; [exact Hr|]. apply decode_lookup. split; [lia | exact Hr].
Qed.

Lemma valid_get_frame (self : ImageIOReader.t) (k : Z) :
  valid self ->
  0 <= k < ImageIOReader._len self ->
  exists a,
    rd_frames (ImageIOReader.reader self) !! Z.to_nat k = Some (Ok a)
    /\ ImageIOReader.get_frame k self
       = (Ok (as_frame k a),
          ImageIOReader.set_reader self (log_read k (ImageIOReader.reader self))).
Proof.
  intros Hv Hk. destruct (valid_decode self k Hv Hk) as (a & Hlk & Hdec).
  exists a. split; [exact Hlk|].
  rewrite (get_frame_open k self (proj1 Hv)), Hdec. reflexivity.
Qed.

(** C6.  On a facade over a valid backend of length [n]: for every [i] in
    [[-n, n)], [get(i)] returns the frame decoded at [i mod n], numbered
    [i mod n]; [get(-1)] is the very call [get(n - 1)] makes, and for a
    non-empty sequence it returns a frame numbered [n - 1]; for every [i]
    outside [[-n, n)], [get(i)] raises [IndexError] (the specification's
    IndexOutOfRange) and leaves the facade as it is. *)
Theorem getitem_wraps_negative_indices (self : ImageIOReader.t) :
  valid self ->
  (forall i,
      - ImageIOReader._len self <= i < ImageIOReader._len self ->
      exists a,
        rd_frames (ImageIOReader.reader self)
          !! Z.to_nat (i mod ImageIOReader._len self) = Some (Ok a)
        /\ ImageIOReader.__getitem__ i self
           = (Ok (mk_Frame (array_data a) (i mod ImageIOReader._len self) (meta a)),
              ImageIOReader.set_reader self
                (log_read (i mod ImageIOReader._len self)
                   (ImageIOReader.reader self))))
  /\ ImageIOReader.__getitem__ (-1) self
     = ImageIOReader.__getitem__ (ImageIOReader._len self - 1) self
  /\ (0 < ImageIOReader._len self ->
      exists fr self',
        ImageIOReader.__getitem__ (-1) self = (Ok fr, self')
        /\ frame_no fr = ImageIOReader._len self - 1)
  /\ (forall i,
         i < - ImageIOReader._len self \/ ImageIOReader._len self <= i ->
         ImageIOReader.__getitem__ i self = (Raise IndexError, self)).
Proof.
  intros Hv.
  assert (Hin : forall i,
             - ImageIOReader._len self <= i < ImageIOReader._len self ->
             exists a,
               rd_frames (ImageIOReader.reader self)
                 !! Z.to_nat (i mod ImageIOReader._len self) = Some (Ok a)
               /\ ImageIOReader.__getitem__ i self
                  = (Ok (as_frame (i mod ImageIOReader._len self) a),
                     ImageIOReader.set_reader self
                       (log_read (i mod ImageIOReader._len self)
                          (ImageIOReader.reader self)))).
  { intros i Hi. rewrite (getitem_in_range i self Hi).
    apply valid_get_frame; [exact Hv|]. apply Z.mod_pos_bound. lia. }
  split; [exact Hin|]. split; [|split].
  - destruct (Z.eq_dec (ImageIOReader._len self) 0) as [H0|Hne].
    + rewrite H0. reflexivity.
    + assert (0 < ImageIOReader._len self) by (destruct Hv as (_ & Hl & _); lia).
      rewrite !getitem_in_range by lia. f_equal.
      rewrite (Z.mod_small (ImageIOReader._len self - 1)) by lia.
      symmetry. apply Z.mod_unique with (q := -1); lia.
  - intros Hpos. destruct (Hin (-1)) as (a & _ & Hget); [lia|].
    eexists _, _. split; [exact Hget|]. simpl.
    symmetry. apply Z.mod_unique with (q := -1); lia.
  - intros i Hi. apply getitem_out_of_range. exact Hi.
Qed.

Lemma stub_facade_valid : valid stub_facade.
Proof.
  split; [reflexivity|]. split; [reflexivity|].
  repeat constructor.
Qed.

Lemma getitem_wraps_negative_indices_witness :
  valid stub_facade
  /\ ImageIOReader.__getitem__ (-1) stub_facade
     = ImageIOReader.__getitem__ 2 stub_facade
  /\ fst (ImageIOReader.__getitem__ (-1) stub_facade) = Ok (as_frame 2 array2)
  /\ ImageIOReader.__getitem__ 3 stub_facade = (Raise IndexError, stub_facade)
  /\ ImageIOReader.__getitem__ (-4) stub_facade = (Raise IndexError, stub_facade).
Proof.
  pose proof (getitem_wraps_negative_indices stub_facade stub_facade_valid)
    as (_ & Hlast & _ & Hout).
  split; [exact stub_facade_valid|]. split; [exact Hlast|].
  split; [reflexivity|]. split; apply Hout; simpl; lia.
Defined.

(** ** Frame numbering and iteration *)

Lemma iter_loop_valid (m : nat) :
  forall (k : Z) (self : ImageIOReader.t),
    rd_closed (ImageIOReader.reader self) = false ->
    Forall (fun r => is_ok r = true) (rd_frames (ImageIOReader.reader self)) ->
    0 <= k ->
    k + Z.of_nat m <= Z.of_nat (length (rd_frames (ImageIOReader.reader self))) ->
    exists frames self',
      ImageIOReader.iter_loop (seqZ k (Z.of_nat m)) k self = (frames, None, self')
      /\ length frames = m
      /\ map frame_no frames = seqZ k (Z.of_nat m)
      /\ forall (j : nat) fr,
          frames !! j = Some fr ->
          exists a,
            rd_frames (ImageIOReader.reader self) !! (Z.to_nat k + j)%nat = Some (Ok a)
            /\ fr = as_frame (k + Z.of_nat j) a.
Proof.
  induction m as [|m IH]; intros k self Hopen Hall Hk Hbound.
  - exists [], self. repeat split; auto. intros j fr H. discriminate.
  - rewrite seqZ_cons by lia.
    replace (Z.pred (Z.of_nat (S m))) with (Z.of_nat m) by lia.
    cbn [ImageIOReader.iter_loop]. rewrite next_eq.
    destruct (Z.leb_spec
                (Z.of_nat (length (rd_frames (ImageIOReader.reader self)))) k); [lia|].
    rewrite (get_data_open k _ Hopen). cbn [fst snd].
    destruct (lookup_lt_is_Some_2 (rd_frames (ImageIOReader.reader self)) (Z.to_nat k))
      as [r Hr]; [lia|].
    assert (Hok : is_ok r = true).
    { rewrite Forall_forall in Hall. apply Hall.
      eapply list_elem_of_lookup_2. exact Hr. }
    destruct r as [a|e]; [|discriminate].
    assert (Hdec : decode (ImageIOReader.reader self) k = Ok a).
    { apply decode_lookup. split; [lia | exact Hr]. }
    rewrite Hdec. cbn [rmap].
    set (self1 := ImageIOReader.set_reader self
                    (log_read k (ImageIOReader.reader self))).
    destruct (IH (Z.succ k) self1) as (frames & self' & Hloop & Hlen & Hnos & Hfr);
      [exact Hopen | exact Hall | lia | simpl; lia |].
    replace (k + 1) with (Z.succ k) by lia. rewrite Hloop.
    exists (as_frame k a :: frames), self'.
    split; [reflexivity|]. split; [simpl; congruence|].
    split; [simpl; rewrite Hnos; reflexivity|].
    intros [|j] fr Hj; simpl in Hj.
    + injection Hj as <-. exists a. split.
      * rewrite Nat.add_0_r. exact Hr.
      * f_equal. lia.
    + destruct (Hfr j fr Hj) as (a' & Hlk & ->). exists a'. split.
      * simpl in Hlk. rewrite <- Hlk. f_equal. lia.
      * f_equal. lia.
Qed.

(** C7.  On a facade over a valid backend: for every valid non-negative
    index [k], [get_frame(k)], and so [get(k)], returns the array decoded
    at [k] as a frame numbered [k] that carries that array's metadata; and
    iterating the facade ends normally after exactly [length] frames,
    numbered 0, 1, ..., [length - 1] in that order, the j-th one made of
    the array decoded at [j] with its metadata. *)
Theorem frames_are_numbered_in_order (self : ImageIOReader.t) :
  valid self ->
  (forall k,
      0 <= k < ImageIOReader._len self ->
      exists a fr self',
        rd_frames (ImageIOReader.reader self) !! Z.to_nat k = Some (Ok a)
        /\ ImageIOReader.get_frame k self = (Ok fr, self')
        /\ ImageIOReader.__getitem__ k self = (Ok fr, self')
        /\ frame_no fr = k
        /\ metadata fr = meta a
        /\ frame_data fr = array_data a)
  /\ exists frames self',
      ImageIOReader.__iter__ self = (frames, None, self')
      /\ Z.of_nat (length frames) = ImageIOReader._len self
      /\ map frame_no frames = seqZ 0 (ImageIOReader._len self)
      /\ forall (j : nat) fr,
          frames !! j = Some fr ->
          exists a,
            rd_frames (ImageIOReader.reader self) !! j = Some (Ok a)
            /\ frame_no fr = Z.of_nat j
            /\ metadata fr = meta a
            /\ frame_data fr = array_data a.
Proof.
  intros Hv. split.
  - intros k Hk. destruct (valid_get_frame self k Hv Hk) as (a & Hlk & Hget).
    exists a. eexists _, _. split; [exact Hlk|]. split; [exact Hget|].
    split; [|repeat split].
    rewrite getitem_in_range by lia. rewrite Z.mod_small by lia. exact Hget.
  - destruct Hv as (Hopen & Hlen & Hall).
    unfold ImageIOReader.__iter__.
    replace (ImageIOReader.on_reader iter_data self) with (Ok 0, self)
      by (destruct self; reflexivity).
    rewrite Hlen.
    destruct (iter_loop_valid (length (rd_frames (ImageIOReader.reader self)))
                0 self Hopen Hall) as (frames & self' & Hloop & Hn & Hnos & Hfr);
      [lia | lia |].
    exists frames, self'. split; [exact Hloop|]. split; [congruence|].
    split; [exact Hnos|].
    intros j fr Hj. destruct (Hfr j fr Hj) as (a & Hlk & ->).
    exists a. split; [exact Hlk|]. repeat split.
Qed.

Lemma frames_are_numbered_in_order_witness :
  valid stub_facade
  /\ exists frames self',
      ImageIOReader.__iter__ stub_facade = (frames, None, self')
      /\ map frame_no frames = [0; 1; 2].
Proof.
  split; [exact stub_facade_valid|].
  destruct (proj2 (frames_are_numbered_in_order stub_facade stub_facade_valid))
    as (frames & self' & Hiter & _ & Hnos & _).
  exists frames, self'. split; [exact Hiter | exact Hnos].
Defined.

(** ** Closing *)







(** ** The viewer *)

Lemma run_pipelines_state (funcs : list (option Transform)) :
  forall (image : Frame) (self : Viewer.t),
    snd (Viewer.run_pipelines funcs image self) = self.
Proof.
  induction funcs as [|[f|] rest IH]; intros image self.
  - reflexivity.
  - exact (IH (f image) self).
  - reflexivity.
Qed.

Lemma run_pipelines_some (fs : list Transform) :
  forall (image : Frame) (self : Viewer.t),
    Viewer.run_pipelines (map Some fs) image self
    = (Ok (fold_left (fun im f => f im) fs image), self).
Proof.
  induction fs as [|f fs IH]; intros image self.
  - reflexivity.
  - exact (IH (f image) self).
Qed.

Lemma image_setter_eq (image : Frame) (self : Viewer.t) :
  Viewer.image_setter image self
  = (match shape (frame_data image) with
     | _ :: _ :: _ => rmap (fun _ => tt) (clim (frame_data image))
     | _ => Raise Py.ValueError
     end,
     Viewer.set_image image self).
Proof.
  unfold Viewer.image_setter, mbind, M_bind, modify. cbn beta iota.
  destruct (shape (frame_data image)) as [|h [|w rest]]; try reflexivity.
  destruct (clim (frame_data image)) as [c|e]; reflexivity.
Qed.

Lemma image_setter_state (image : Frame) (self : Viewer.t) :
  snd (Viewer.image_setter image self) = Viewer.set_image image self.
Proof. rewrite image_setter_eq. reflexivity. Qed.

Lemma image_setter_any_viewer (image : Frame) (self other : Viewer.t) :
  fst (Viewer.image_setter image self) = fst (Viewer.image_setter image other).
Proof. rewrite !image_setter_eq. reflexivity. Qed.

Lemma clim_is_ok (image : ndarray) :
  is_ok (clim image)
  = match dtype_range !! dtype image with
    | Some (lo, _) => (0 <=? lo) || negb (bool_decide (pixels image = []))
    | None => false
    end.
Proof.
  unfold clim, array_min.
  destruct (dtype_range !! dtype image) as [[lo hi]|]; [|reflexivity].
  destruct (Z.ltb_spec lo 0) as [Hneg|Hpos].
  - destruct (Z.leb_spec 0 lo); [lia|].
    destruct (pixels image) as [|p ps]; [reflexivity|].
    cbn [orb negb]. rewrite bool_decide_eq_false_2 by discriminate.
    destruct (fold_left Z.min ps p >=? 0); reflexivity.
  - destruct (Z.leb_spec 0 lo); [reflexivity | lia].
Qed.

Lemma image_setter_displayable (image : Frame) (self : Viewer.t) :
  is_ok (fst (Viewer.image_setter image self)) = displayable image.
Proof.
  rewrite image_setter_eq. unfold displayable. cbn [fst].
  rewrite <- clim_is_ok.
  destruct (shape (frame_data image)) as [|h [|w rest]]; try reflexivity.
  cbn [length Nat.leb andb].
  destruct (clim (frame_data image)); reflexivity.
Qed.

Lemma image_setter_accepts (image : Frame) (self : Viewer.t) :
  displayable image = true ->
  Viewer.image_setter image self = (Ok tt, Viewer.set_image image self).
Proof.
  intros Hd. rewrite <- (image_setter_displayable image self) in Hd.
  rewrite image_setter_eq in *. cbn [fst] in Hd.
  destruct (shape (frame_data image)) as [|h [|w rest]]; try discriminate Hd.
  destruct (clim (frame_data image)); [reflexivity | discriminate Hd].
Qed.

Lemma image_setter_refuses (image : Frame) (self : Viewer.t) :
  displayable image = false ->
  Viewer.image_setter image self
  = (Raise (if (2 <=? length (shape (frame_data image)))%nat
            then match dtype_range !! dtype (frame_data image) with
                 | None => Py.KeyError (dtype (frame_data image))
                 | Some _ => Py.ValueError
                 end
            else Py.ValueError),
     Viewer.set_image image self).
Proof.
  unfold displayable. intros Hd. rewrite image_setter_eq.
  destruct (shape (frame_data image)) as [|h [|w rest]]; try reflexivity.
  cbn [length Nat.leb andb] in *. unfold clim, array_min.
  destruct (dtype_range !! dtype (frame_data image)) as [[lo hi]|]; [|reflexivity].
  apply orb_false_iff in Hd as [Hlo Hpx].
  apply negb_false_iff, bool_decide_eq_true in Hpx.
  destruct (Z.leb_spec 0 lo); [discriminate|].
  destruct (Z.ltb_spec lo 0); [|lia].
  rewrite Hpx. reflexivity.
Qed.

Lemma update_image_eq (self : Viewer.t) :
  Viewer.update_image self
  = match fst (Viewer.run_pipelines (Viewer.pipelines self)
                 (Viewer.copy (Viewer.original_image self)) self) with
    | Ok image => Viewer.image_setter image self
    | Raise e => (Raise e, self)
    end.
Proof.
  unfold Viewer.update_image, mbind, M_bind, gets. cbn beta iota.
  pose proof (run_pipelines_state (Viewer.pipelines self)
                (Viewer.copy (Viewer.original_image self)) self) as Hs.
  destruct (Viewer.run_pipelines (Viewer.pipelines self)
              (Viewer.copy (Viewer.original_image self)) self) as [[im|e] s'];
    simpl in Hs; subst s'; reflexivity.
Qed.

Lemma update_image_keeps (self : Viewer.t) :
  Viewer.reader (snd (Viewer.update_image self)) = Viewer.reader self
  /\ Viewer.index (snd (Viewer.update_image self)) = Viewer.index self
  /\ Viewer.pipelines (snd (Viewer.update_image self)) = Viewer.pipelines self
  /\ Viewer.original_image (snd (Viewer.update_image self))
     = Viewer.original_image self.
Proof.
  rewrite update_image_eq.
  destruct (fst (Viewer.run_pipelines (Viewer.pipelines self)
                   (Viewer.copy (Viewer.original_image self)) self));
    [rewrite image_setter_eq|]; repeat split.
Qed.

Lemma update_index_eq (index : Z) (self : Viewer.t) :
  Viewer.update_index index self
  = let n := api.ImageIOReader._len (Viewer.reader self) in
    let clamped := Z.min (Z.max index 0) (n - 1) in
    if clamped =? Viewer.index self then (Ok tt, self)
    else
      let moved := Viewer.set_slider_val clamped (Viewer.set_index clamped self) in
      match api.ImageIOReader.__getitem__ clamped (Viewer.reader self) with
      | (Ok image, r) =>
          Viewer.update_image
            (Viewer.set_original_image image (Viewer.set_reader moved r))
      | (Raise e, r) => (Raise e, Viewer.set_reader moved r)
      end.
Proof.
  unfold Viewer.update_index, mbind, M_bind, Viewer.on_reader, zoom,
    api.ImageIOReader.__len__, gets, modify, Viewer.int_round.
  cbn beta iota zeta.
  replace (Viewer.set_reader self (Viewer.reader self)) with self
    by (destruct self; reflexivity).
  destruct (Z.min (Z.max index 0) (api.ImageIOReader._len (Viewer.reader self) - 1)
            =? Viewer.index self); [reflexivity|].
  cbn [Viewer.index Viewer.set_index Viewer.set_slider_val Viewer.reader].
  destruct (api.ImageIOReader.__getitem__ _ (Viewer.reader self)) as [[im|e] r];
    reflexivity.
Qed.



(** ** Pipelines *)

Lemma getitem_chain {Self : Type} (root : Z -> M Self Frame) (fs : list Transform) :
  forall (s : Seq) (i : Z) (r : Self),
    getitem Self root (fold_left (fun up f => pipeline (Some f) up) fs s) i r
    = (rmap (fun p => fold_left (fun im f => f im) fs p) (fst (getitem Self root s i r)),
       snd (getitem Self root s i r)).
Proof.
  induction fs as [|f fs IH]; intros s i r; simpl.
  - destruct (getitem Self root s i r) as [[p|e] r']; reflexivity.
  - rewrite IH. simpl. unfold mbind, M_bind.
    destruct (getitem Self root s i r) as [[p|e] r']; reflexivity.
Qed.

Lemma add_eq (f : Transform) (fs : list Transform) (self : Viewer.t) :
  Viewer.pipelines self = map Some fs ->
  Viewer.__add__ f self
  = (rmap (fun _ => Z.of_nat (length fs))
       (fst (Viewer.image_setter
               (fold_left (fun im g => g im) (fs ++ [f])%list
                  (Viewer.original_image self))
               self)),
     Viewer.set_image
       (fold_left (fun im g => g im) (fs ++ [f])%list (Viewer.original_image self))
       (Viewer.set_pipelines (map Some (fs ++ [f])%list) self)).
Proof.
  intros Hp.
  unfold Viewer.__add__, Viewer.update_pipeline, mbind, M_bind, gets, modify.
  cbn beta iota zeta. rewrite Hp.
  cbn [Viewer.pipelines Viewer.set_pipelines].
  rewrite length_app, !length_map. cbn [length].
  destruct (Z.leb_spec (- Z.of_nat (length fs + 1)) (Z.of_nat (length fs))); [|lia].
  destruct (Z.ltb_spec (Z.of_nat (length fs)) (Z.of_nat (length fs + 1))); [|lia].
  destruct (Z.ltb_spec (Z.of_nat (length fs)) 0); [lia|].
  cbn [andb]. cbn beta iota.
  rewrite Nat2Z.id.
  replace (<[length fs:=Some f]> (map Some fs ++ [None])%list)
    with (map Some (fs ++ [f])%list).
  2:{ rewrite map_app.
      rewrite (insert_app_r_alt (map Some fs) [None] (length fs) (Some f))
        by (rewrite length_map; lia).
      rewrite length_map, Nat.sub_diag. reflexivity. }
  rewrite update_image_eq.
  cbn [Viewer.pipelines Viewer.set_pipelines Viewer.original_image].
  rewrite run_pipelines_some. cbn [fst]. unfold Viewer.copy.
  rewrite !image_setter_eq. cbn [fst].
  match goal with
  | |- context [rmap _ ?r] => destruct r as [[]|e]; reflexivity
  end.
Qed.

(** C8.  On a viewer with no plugin yet, registering transform [A] and
    then [B] leaves the pipeline list [[A; B]] and the image [B (A
    original)] in the viewer.  Each registration returns exactly when the
    image it computed is one the [image] setter displays; when both are,
    the two registrations in sequence return the index of [B].  The last
    sequence that [show] returns is [B] over [A] over the reader, and
    indexing it at [i] asks the reader for frame [i] once and returns
    [B (A p)] for the frame [p] the reader returned, or fails as the
    reader failed. *)
Theorem pipelines_apply_in_registration_order
  (A B : Transform) (v0 : Viewer.t) :
  Viewer.pipelines v0 = [] ->
  exists v1 v2,
    snd (Viewer.__add__ A v0) = v1
    /\ snd (Viewer.__add__ B v1) = v2
    /\ Viewer.pipelines v2 = [Some A; Some B]
    /\ Viewer._img v2 = B (A (Viewer.original_image v0))
    /\ Viewer.reader v2 = Viewer.reader v0
    /\ is_ok (fst (Viewer.__add__ A v0))
       = displayable (A (Viewer.original_image v0))
    /\ is_ok (fst (Viewer.__add__ B v1))
       = displayable (B (A (Viewer.original_image v0)))
    /\ (displayable (A (Viewer.original_image v0)) = true ->
        displayable (B (A (Viewer.original_image v0))) = true ->
        (Viewer.__add__ A ;; Viewer.__add__ B) v0 = (Ok 1, v2))
    /\ Viewer.show v2
       = [Root; pipeline (Some A) Root; pipeline (Some B) (pipeline (Some A) Root)]
    /\ forall i,
        Viewer.result_getitem (pipeline (Some B) (pipeline (Some A) Root)) i v2
        = (rmap (fun p => B (A p))
             (fst (api.ImageIOReader.__getitem__ i (Viewer.reader v2))),
           Viewer.set_reader v2
             (snd (api.ImageIOReader.__getitem__ i (Viewer.reader v2)))).
Proof.
  intros Hp0.
  pose proof (add_eq A [] v0 Hp0) as HA.
  cbn [app map fold_left length Z.of_nat] in HA.
  set (v1 := Viewer.set_image (A (Viewer.original_image v0))
               (Viewer.set_pipelines [Some A] v0)) in *.
  pose proof (add_eq B [A] v1 eq_refl) as HB.
  cbn [app map fold_left length Z.of_nat v1 Viewer.original_image
         Viewer.set_image Viewer.set_pipelines] in HB.
  fold v1 in HB.
  set (v2 := Viewer.set_image (B (A (Viewer.original_image v0)))
               (Viewer.set_pipelines [Some A; Some B] v1)) in *.
  exists v1, v2.
  split; [rewrite HA; reflexivity|]. split; [rewrite HB; reflexivity|].
  split; [reflexivity|]. split; [reflexivity|]. split; [reflexivity|].
  split; [rewrite HA; cbn [fst];
          rewrite <- (image_setter_displayable _ v0);
          destruct (fst (Viewer.image_setter _ v0)); reflexivity|].
  split; [rewrite HB; cbn [fst];
          rewrite <- (image_setter_displayable _ v1);
          destruct (fst (Viewer.image_setter _ v1)); reflexivity|].
  split.
  - intros HdA HdB. unfold mbind at 1. unfold M_bind.
    rewrite HA, (image_setter_accepts _ v0 HdA). cbn [fst rmap].
    rewrite HB, (image_setter_accepts _ v1 HdB). reflexivity.
  - split; [reflexivity|]. intros i.
    unfold Viewer.result_getitem, Viewer.on_reader, zoom.
    rewrite (getitem_chain api.ImageIOReader.__getitem__ [A; B] Root i).
    reflexivity.
Qed.

Lemma pipelines_apply_in_registration_order_witness :
  Viewer.pipelines stub_viewer = []
  /\ exists v2,
      (Viewer.__add__ brighten ;; Viewer.__add__ invert) stub_viewer = (Ok 1, v2)
      /\ pixels (frame_data (Viewer._img v2)) = [254; 253; 252; 251]
      /\ rmap (fun f => pixels (frame_data f))
           (fst (Viewer.result_getitem
                   (pipeline (Some invert) (pipeline (Some brighten) Root)) 1 v2))
         = Ok [244; 243; 242; 241].
Proof.
  split; [reflexivity|].
  destruct (pipelines_apply_in_registration_order brighten invert stub_viewer eq_refl)
    as (v1 & v2 & _ & _ & _ & Himg & Hrd & _ & _ & Hadd & _ & Hget).
  exists v2. split; [apply Hadd; vm_compute; reflexivity|]. split.
  - rewrite Himg. reflexivity.
  - rewrite Hget, Hrd. reflexivity.
Defined.

(** * Further properties of the code *)

(** ** The module body *)

Ltac flags h :=
  destruct h as [pi pa tf lt pil bi ba nd ce];
  destruct pi, pa, tf, lt, pil, bi, ba, nd.

(** X1.  The alias [TiffStack] is the first available of the tifffile, the
    libtiff and the PIL reader, in that order of preference, and it is
    always the very object bound to that reader's own name; it is the
    failing stub only when none of the three is available. *)
Theorem tiffstack_prefers_tifffile_then_libtiff_then_pil (h : Host) :
  TiffStack (module_body h)
  = (if tifffile_available h then reader_class "TiffStack_tifffile"
     else if libtiff_available h then reader_class "TiffStack_libtiff"
     else if PIL_available h then reader_class "TiffStack_pil"
     else raiser "tifffile, libtiff, or PIL/Pillow")
  /\ TiffStack (module_body h)
     = (if tifffile_available h then TiffStack_tifffile (module_body h)
        else if libtiff_available h then TiffStack_libtiff (module_body h)
        else if PIL_available h then TiffStack_pil (module_body h)
        else raiser "tifffile, libtiff, or PIL/Pillow").
Proof. flags h; split; reflexivity. Qed.

(** X2.  A reader name is bound to a failing stub exactly when its
    decoding library is missing: an installed backend is never shadowed by
    a stub, and calling the name then reaches the backend's constructor
    with the arguments unchanged. *)
Theorem stub_bound_exactly_when_library_missing
  (Backend : Type) (construct : string -> Args -> result Backend)
  (h : Host) (b : backend_name) :
  (library_missing h b = true
   <-> exists requirement, binding (module_body h) b = raiser requirement)
  /\ (library_missing h b = false
      <-> exists cls,
          binding (module_body h) b = reader_class cls
          /\ forall args,
              call Backend construct (binding (module_body h) b) args
              = construct cls args).
Proof.
  flags h; destruct b; cbn; split; split;
    try (intros _; eexists; try split; try reflexivity; intros; reflexivity);
    try discriminate;
    try (intros [? H]; discriminate H);
    try (intros [? [H _]]; discriminate H).
Qed.

(** X3.  The formats registered with ImageIO are, in this order: Norpix and
    Cine always, then PyAV, Tifffile, Libtiff, PIL, Bioformats and
    ND2_Reader, each exactly when its library is available.  Every
    registered format carries a reader class, never a failing stub, and the
    extension tuple of that class. *)
Theorem registered_formats_follow_availability (h : Host) :
  map name (formats (module_body h))
  = (["Norpix"; "Cine"]
     ++ (if pyav_importable h && pyav_available h then ["PyAV"] else [])
     ++ (if tifffile_available h then ["Tifffile"] else [])
     ++ (if libtiff_available h then ["Libtiff"] else [])
     ++ (if PIL_available h then ["PIL"] else [])
     ++ (if bioformats_importable h && bioformats_available h
         then ["Bioformats"] else [])
     ++ (if pims_nd2_importable h then ["ND2_Reader"] else []))%list
  /\ Forall (fun fmt => exists cls,
                 _pims_reader fmt = reader_class cls
                 /\ extensions fmt = class_exts h cls)
       (formats (module_body h)).
Proof.
  flags h; (split; [reflexivity|]);
    repeat (apply Forall_cons; split; [eexists; split; reflexivity|]);
    apply Forall_nil; exact I.
Qed.

(** ** Format probing: edge cases *)

Lemma str_at_1 (s : string) :
  (exists c0 m rest, s = String c0 (String m rest) /\ str_at s 1 = Ok m)
  \/ ((String.length s < 2)%nat /\ str_at s 1 = Raise IndexError).
Proof.
  destruct s as [|c0 [|m rest]].
  - right. split; [simpl; lia | reflexivity].
  - right. split; [simpl; lia | reflexivity].
  - left. exists c0, m, rest. split; reflexivity.
Qed.

(** X4.  The read probe raises [IndexError] exactly when the request mode
    has fewer than two characters, whatever the file name; otherwise it
    answers [True] or [None], never [False].  A format that declares no
    extension reads nothing, and with the wildcard mode the answer depends
    on the file name alone. *)
Theorem can_read_edge_cases (self : PimsFormat) (request : Request) :
  (_can_read self request = Raise IndexError
   <-> (String.length (mode request) < 2)%nat)
  /\ ((String.length (mode request) >= 2)%nat ->
      _can_read self request = Ok (Some true)
      \/ _can_read self request = Ok None)
  /\ (extensions self = [] -> truthy_result (_can_read self request) = false)
  /\ (forall c0 rest,
         mode request = String c0 (String "?" rest) ->
         _can_read self request
         = if endswith (lower (filename request)) (extensions self)
           then Ok (Some true) else Ok None).
Proof.
  unfold _can_read.
  destruct (str_at_1 (mode request)) as [(c0 & m & rest & Hm & ->)|[Hlen ->]].
  - assert (Hlong : (String.length (mode request) >= 2)%nat)
      by (rewrite Hm; simpl; lia).
    split; [split; [|lia]|].
    { destruct (char_in m (modes self ++ "?"));
        [destruct (endswith _ _)|]; discriminate. }
    split.
    { intros _. destruct (char_in m (modes self ++ "?"));
        [destruct (endswith _ _)|]; auto. }
    split.
    { intros ->. destruct (char_in m (modes self ++ "?")); reflexivity. }
    intros c0' rest' Hq. rewrite Hq in Hm. injection Hm as _ <- _.
    rewrite char_in_app. simpl. rewrite orb_true_r. reflexivity.
  - split; [split; auto|]. split; [lia|]. split; [reflexivity|].
    intros c0 rest Hq. rewrite Hq in Hlen. simpl in Hlen. lia.
Qed.

(** ** Iteration over any backend *)

Lemma iter_loop_prefix (idxs : list Z) :
  forall (it : Z) (self : ImageIOReader.t),
    0 <= it ->
    (length (ImageIOReader.iter_loop idxs it self).1.1 <= length idxs)%nat
    /\ (ImageIOReader.iter_loop idxs it self).1.2 <> Some StopIteration
    /\ ((ImageIOReader.iter_loop idxs it self).1.2 = None ->
        length (ImageIOReader.iter_loop idxs it self).1.1 = length idxs
        \/ (length (rd_frames (ImageIOReader.reader self))
            <= Z.to_nat it + length (ImageIOReader.iter_loop idxs it self).1.1)%nat
        \/ rd_frames (ImageIOReader.reader self)
             !! (Z.to_nat it + length (ImageIOReader.iter_loop idxs it self).1.1)%nat
           = Some (Raise StopIteration))
    /\ (forall e,
           (ImageIOReader.iter_loop idxs it self).1.2 = Some e ->
           (rd_closed (ImageIOReader.reader self) = true /\ e = ClosedSequence)
           \/ rd_frames (ImageIOReader.reader self)
                !! (Z.to_nat it + length (ImageIOReader.iter_loop idxs it self).1.1)%nat
              = Some (Raise e))
    /\ (rd_closed (ImageIOReader.reader self) = true ->
        (ImageIOReader.iter_loop idxs it self).1.1 = [])
    /\ forall (j : nat) fr,
        (ImageIOReader.iter_loop idxs it self).1.1 !! j = Some fr ->
        idxs !! j = Some (frame_no fr)
        /\ exists a,
            rd_frames (ImageIOReader.reader self) !! (Z.to_nat it + j)%nat
            = Some (Ok a)
            /\ frame_data fr = array_data a
            /\ metadata fr = meta a.
Proof.
  induction idxs as [|i rest IH]; intros it self Hit; cbn [ImageIOReader.iter_loop].
  - cbn [fst snd length]. split; [lia|]. split; [discriminate|].
    split; [intros _; left; reflexivity|]. split; [discriminate|].
    split; [reflexivity|]. intros j fr H; discriminate H.
  - rewrite next_eq.
    destruct (Z.leb_spec (Z.of_nat (length (rd_frames (ImageIOReader.reader self)))) it)
      as [Hout|Hin].
    { cbn [fst snd length]. split; [lia|]. split; [discriminate|].
      split; [intros _; right; left; lia|]. split; [discriminate|].
      split; [reflexivity|]. intros j fr H; discriminate H. }
    unfold get_data.
    destruct (rd_closed (ImageIOReader.reader self)) eqn:Hc; cbn [fst snd rmap].
    { cbn [fst snd length]. split; [lia|]. split; [discriminate|].
      split; [discriminate|].
      split; [intros e He; injection He as <-; left; split; reflexivity|].
      split; [reflexivity|]. intros j fr H; discriminate H. }
    destruct (decode (ImageIOReader.reader self) it) as [a|e] eqn:Hd; cbn [rmap].
    2:{ assert (Hlk : rd_frames (ImageIOReader.reader self) !! (Z.to_nat it + 0)%nat
                      = Some (Raise e)).
        { rewrite Nat.add_0_r. unfold decode in Hd.
          destruct (Z.ltb_spec it 0); [lia|].
          destruct (rd_frames (ImageIOReader.reader self) !! Z.to_nat it) as [r|] eqn:Hr.
          - rewrite Hd. reflexivity.
          - apply lookup_ge_None in Hr. lia. }
        destruct e; cbn [fst snd length];
          (split; [lia|]); (split; [discriminate|]);
          (split; [try discriminate; intros _; right; right; exact Hlk|]);
          (split; [try discriminate;
                   intros e' He'; injection He' as <-; right; exact Hlk|]);
          (split; [discriminate|]); intros j fr H; discriminate H. }
    set (self1 := ImageIOReader.set_reader self
                    (log_read it (ImageIOReader.reader self))).
    destruct (IH (it + 1) self1) as (Hle & Hstop & Hnone & Hsome & _ & Hfr); [lia|].
    destruct (ImageIOReader.iter_loop rest (it + 1) self1) as [[frames ending] self2].
    cbn [fst snd] in *. simpl length.
    replace (Z.to_nat (it + 1) + length frames)%nat
      with (Z.to_nat it + S (length frames))%nat in Hnone, Hsome by lia.
    split; [lia|]. split; [exact Hstop|].
    split; [intros H; destruct (Hnone H) as [Hl|[Hl|Hl]];
            [left; rewrite Hl; reflexivity | right; left; exact Hl
             | right; right; exact Hl]|].
    split; [intros e He; destruct (Hsome e He) as [[Hcl _]|Hl];
            [simpl in Hcl; congruence | right; exact Hl]|].
    split; [discriminate|].
    intros [|j] fr Hj; simpl in Hj.
    + injection Hj as <-. split; [reflexivity|].
      apply decode_lookup in Hd as [_ Hlk].
      exists a. rewrite Nat.add_0_r. split; [exact Hlk | split; reflexivity].
    + destruct (Hfr j fr Hj) as (Hidx & a' & Hlk & Hdata & Hmeta).
      split; [exact Hidx|]. exists a'. split; [|split; assumption].
      simpl in Hlk. rewrite <- Hlk. f_equal. lia.
Qed.

(** X5.  Whatever the backend does, iterating a facade yields at most
    [len(self)] frames; the j-th frame yielded is numbered [j] and is made
    of the array the reader decodes at index [j], with that array's
    metadata; and on a closed reader it yields no frame at all.  The
    iteration never ends with [StopIteration]: it ends normally, and then
    either after exactly [len(self)] frames, or earlier because the reader
    has no frame left or raised [StopIteration] itself for the next one;
    any other exception that ends it is [ClosedSequence] from a closed
    reader or the failure to decode the next frame. *)
Theorem iteration_yields_a_numbered_prefix (self : ImageIOReader.t) :
  (length (ImageIOReader.__iter__ self).1.1
   <= Z.to_nat (ImageIOReader._len self))%nat
  /\ (ImageIOReader.__iter__ self).1.2 <> Some StopIteration
  /\ ((ImageIOReader.__iter__ self).1.2 = None ->
      length (ImageIOReader.__iter__ self).1.1
      = Z.to_nat (ImageIOReader._len self)
      \/ (length (rd_frames (ImageIOReader.reader self))
          <= length (ImageIOReader.__iter__ self).1.1)%nat
      \/ rd_frames (ImageIOReader.reader self)
           !! length (ImageIOReader.__iter__ self).1.1
         = Some (Raise StopIteration))
  /\ (forall e,
         (ImageIOReader.__iter__ self).1.2 = Some e ->
         (rd_closed (ImageIOReader.reader self) = true /\ e = ClosedSequence)
         \/ rd_frames (ImageIOReader.reader self)
              !! length (ImageIOReader.__iter__ self).1.1
            = Some (Raise e))
  /\ (rd_closed (ImageIOReader.reader self) = true ->
      (ImageIOReader.__iter__ self).1.1 = [])
  /\ forall (j : nat) fr,
      (ImageIOReader.__iter__ self).1.1 !! j = Some fr ->
      frame_no fr = Z.of_nat j
      /\ exists a,
          rd_frames (ImageIOReader.reader self) !! j = Some (Ok a)
          /\ frame_data fr = array_data a
          /\ metadata fr = meta a.
Proof.
  unfold ImageIOReader.__iter__.
  replace (ImageIOReader.on_reader iter_data self) with (Ok 0, self)
    by (destruct self; reflexivity).
  destruct (iter_loop_prefix (seqZ 0 (ImageIOReader._len self)) 0 self)
    as (Hle & Hstop & Hnone & Hsome & Hclosed & Hfr); [lia|].
  rewrite length_seqZ in Hle, Hnone. cbn [Z.to_nat Nat.add] in Hnone, Hsome.
  split; [exact Hle|]. split; [exact Hstop|]. split; [exact Hnone|].
  split; [exact Hsome|]. split; [exact Hclosed|].
  intros j fr Hj. destruct (Hfr j fr Hj) as (Hidx & a & Hlk & Hd & Hm).
  apply lookup_seqZ in Hidx as [Hno _].
  split; [lia|]. exists a. split; [exact Hlk | split; assumption].
Qed.

Lemma iteration_yields_a_numbered_prefix_witness :
  map frame_no (ImageIOReader.__iter__ short_facade).1.1 = [0; 1; 2]
  /\ (ImageIOReader.__iter__ short_facade).1.2 = None
  /\ (length (rd_frames (ImageIOReader.reader short_facade))
      <= length (ImageIOReader.__iter__ short_facade).1.1)%nat
  /\ (ImageIOReader.__iter__ (snd (ImageIOReader.close stub_facade))).1.1 = []
  /\ (ImageIOReader.__iter__ (snd (ImageIOReader.close stub_facade))).1.2
     = Some ClosedSequence.
Proof.
  destruct (iteration_yields_a_numbered_prefix short_facade)
    as (_ & _ & Hnone & _).
  destruct (iteration_yields_a_numbered_prefix (snd (ImageIOReader.close stub_facade)))
    as (_ & _ & _ & _ & Hclosed & _).
  split; [reflexivity|]. split; [reflexivity|].
  split; [destruct (Hnone eq_refl) as [H|[H|H]];
          [discriminate H | exact H | discriminate H]|].
  split; [apply Hclosed; reflexivity | reflexivity].
Defined.

(** ** What no operation changes *)

(** X6.  Through any sequence of operations on a facade (reads, indexing,
    iteration, metadata and attribute access, close), the file name and
    the cached length, shape and dtype stay what the constructor set, the
    backend's frames are the same, a closed reader stays closed, and the
    reader's request log is only ever extended. *)
Theorem cached_attributes_never_change (self later : ImageIOReader.t) :
  lifetime self later ->
  ImageIOReader.filename later = ImageIOReader.filename self
  /\ ImageIOReader._len later = ImageIOReader._len self
  /\ ImageIOReader._shape later = ImageIOReader._shape self
  /\ ImageIOReader._dtype later = ImageIOReader._dtype self
  /\ rd_frames (ImageIOReader.reader later) = rd_frames (ImageIOReader.reader self)
  /\ (rd_closed (ImageIOReader.reader self) = true ->
      rd_closed (ImageIOReader.reader later) = true)
  /\ exists new,
      rd_reads (ImageIOReader.reader later)
      = (rd_reads (ImageIOReader.reader self) ++ new)%list.
Proof.
  intros Hlife.
  destruct (lifetime_evolves _ _ Hlife)
    as ((Hf & _ & Hc & Hr) & Hn & Hl & Hs & Hd).
  repeat split; assumption.
Qed.

Lemma cached_attributes_never_change_witness :
  lifetime stub_facade
    (snd (ImageIOReader.close (snd (ImageIOReader.__getitem__ (-1) stub_facade))))
  /\ ImageIOReader._len
       (snd (ImageIOReader.close (snd (ImageIOReader.__getitem__ (-1) stub_facade))))
     = 3
  /\ rd_reads (ImageIOReader.reader
                 (snd (ImageIOReader.close
                         (snd (ImageIOReader.__getitem__ (-1) stub_facade)))))
     = [0; 2].
Proof.
  assert (Hlife : lifetime stub_facade
            (snd (ImageIOReader.close
                    (snd (ImageIOReader.__getitem__ (-1) stub_facade))))).
  { eapply rtc_l; [apply (step_getitem (-1))|].
    eapply rtc_l; [apply step_close|]. apply rtc_refl. }
  split; [exact Hlife|].
  destruct (cached_attributes_never_change _ _ Hlife) as (_ & Hlen & _).
  split; [exact Hlen | reflexivity].
Defined.

(** ** The viewer's image and pipeline list *)

Lemma run_pipelines_result (funcs : list (option Transform)) :
  forall (image : Frame) (s1 s2 : Viewer.t),
    fst (Viewer.run_pipelines funcs image s1)
    = fst (Viewer.run_pipelines funcs image s2).
Proof.
  induction funcs as [|[f|] rest IH]; intros image s1 s2.
  - reflexivity.
  - exact (IH (f image) s1 s2).
  - reflexivity.
Qed.

Lemma run_pipelines_none (funcs : list (option Transform)) :
  forall (image : Frame) (self : Viewer.t),
    In None funcs ->
    fst (Viewer.run_pipelines funcs image self) = Raise TypeError.
Proof.
  induction funcs as [|[f|] rest IH]; intros image self Hin.
  - destruct Hin.
  - destruct Hin as [H|H]; [discriminate|]. exact (IH (f image) self H).
  - reflexivity.
Qed.

Lemma update_image_some (self : Viewer.t) (fs : list Transform) :
  Viewer.pipelines self = map Some fs ->
  Viewer.update_image self
  = Viewer.image_setter
      (fold_left (fun im f => f im) fs (Viewer.original_image self)) self.
Proof.
  intros Hp. rewrite update_image_eq, Hp, run_pipelines_some. reflexivity.
Qed.

Lemma update_image_all_functions (self : Viewer.t) (fs : list Transform) :
  Viewer.pipelines self = map Some fs ->
  fst (Viewer.update_image self)
  = fst (Viewer.image_setter
           (fold_left (fun im f => f im) fs (Viewer.original_image self)) self)
  /\ is_ok (fst (Viewer.update_image self))
     = displayable (fold_left (fun im f => f im) fs (Viewer.original_image self))
  /\ Viewer._img (snd (Viewer.update_image self))
     = fold_left (fun im f => f im) fs (Viewer.original_image self).
Proof.
  intros Hp. rewrite (update_image_some self fs Hp).
  split; [reflexivity|]. split; [apply image_setter_displayable|].
  rewrite image_setter_state. reflexivity.
Qed.

(** X7.  [update_image] recomputes the image from the original one.  With
    every slot holding a function it applies the functions in list order
    to the original image and assigns the result to the [image] property:
    the viewer holds that image whether or not the setter then raises.
    The call returns exactly when the image is displayable; otherwise it
    raises [ValueError] for an image of fewer than two dimensions,
    [KeyError] for a scalar type that [dtype_range] does not list, and
    [ValueError] for an image without elements whose type has a negative
    lower end.  With an empty slot it raises [TypeError] and leaves the
    viewer, image included, as it was.  It never changes the pipeline
    list, the reader or the index, and calling it again gives the same
    answer and changes nothing more. *)
Theorem update_image_recomputes_from_original (self : Viewer.t) :
  (forall fs,
      Viewer.pipelines self = map Some fs ->
      Viewer.update_image self
      = Viewer.image_setter
          (fold_left (fun im f => f im) fs (Viewer.original_image self)) self
      /\ snd (Viewer.update_image self)
         = Viewer.set_image
             (fold_left (fun im f => f im) fs (Viewer.original_image self)) self
      /\ is_ok (fst (Viewer.update_image self))
         = displayable (fold_left (fun im f => f im) fs (Viewer.original_image self))
      /\ (displayable (fold_left (fun im f => f im) fs (Viewer.original_image self))
          = true ->
          fst (Viewer.update_image self) = Ok tt)
      /\ (displayable (fold_left (fun im f => f im) fs (Viewer.original_image self))
          = false ->
          fst (Viewer.update_image self)
          = Raise
              (let image :=
                 frame_data
                   (fold_left (fun im f => f im) fs (Viewer.original_image self)) in
               if (2 <=? length (shape image))%nat
               then match dtype_range !! dtype image with
                    | None => Py.KeyError (dtype image)
                    | Some _ => Py.ValueError
                    end
               else Py.ValueError)))
  /\ (In None (Viewer.pipelines self) ->
      Viewer.update_image self = (Raise TypeError, self))
  /\ Viewer.pipelines (snd (Viewer.update_image self)) = Viewer.pipelines self
  /\ Viewer.reader (snd (Viewer.update_image self)) = Viewer.reader self
  /\ Viewer.index (snd (Viewer.update_image self)) = Viewer.index self
  /\ Viewer.update_image (snd (Viewer.update_image self))
     = Viewer.update_image self.
Proof.
  split; [|split].
  - intros fs Hp. rewrite (update_image_some self fs Hp).
    split; [reflexivity|]. split; [apply image_setter_state|].
    split; [apply image_setter_displayable|]. split.
    + intros Hd. rewrite (image_setter_accepts _ self Hd). reflexivity.
    + intros Hd. rewrite (image_setter_refuses _ self Hd). reflexivity.
  - intros Hin. rewrite update_image_eq.
    rewrite (run_pipelines_none _ _ self Hin). reflexivity.
  - destruct (update_image_keeps self) as (Hr & Hi & Hp & Ho).
    split; [exact Hp|]. split; [exact Hr|]. split; [exact Hi|].
    rewrite (update_image_eq (snd (Viewer.update_image self))), Hp, Ho.
    rewrite (run_pipelines_result _ _ (snd (Viewer.update_image self)) self).
    rewrite (update_image_eq self).
    destruct (fst (Viewer.run_pipelines (Viewer.pipelines self)
                     (Viewer.copy (Viewer.original_image self)) self));
      [rewrite !image_setter_eq|]; reflexivity.
Qed.

Lemma update_image_recomputes_from_original_witness :
  Viewer.update_image (Viewer.set_pipelines [Some brighten; Some invert] stub_viewer)
  = (Ok tt,
     Viewer.set_image (invert (brighten frame0))
       (Viewer.set_pipelines [Some brighten; Some invert] stub_viewer))
  /\ fst (Viewer.update_image
            (Viewer.set_pipelines [Some brighten; Some to_float16] stub_viewer))
     = Raise (Py.KeyError "float16")
  /\ dtype (frame_data
              (Viewer._img
                 (snd (Viewer.update_image
                         (Viewer.set_pipelines [Some brighten; Some to_float16]
                            stub_viewer)))))
     = "float16"
  /\ fst (Viewer.update_image
            (Viewer.set_pipelines [Some crop_to_nothing] stub_viewer))
     = Raise Py.ValueError.
Proof.
  split; [|split; [|split]].
  - destruct (update_image_recomputes_from_original
                (Viewer.set_pipelines [Some brighten; Some invert] stub_viewer))
      as (Hfs & _).
    destruct (Hfs [brighten; invert] eq_refl) as (_ & Hst & _ & Hok & _).
    rewrite (surjective_pairing (Viewer.update_image _)), Hst, Hok;
      [reflexivity | vm_compute; reflexivity].
  - destruct (update_image_recomputes_from_original
                (Viewer.set_pipelines [Some brighten; Some to_float16] stub_viewer))
      as (Hfs & _).
    destruct (Hfs [brighten; to_float16] eq_refl) as (_ & _ & _ & _ & Hno).
    rewrite Hno; [vm_compute; reflexivity | vm_compute; reflexivity].
  - destruct (update_image_recomputes_from_original
                (Viewer.set_pipelines [Some brighten; Some to_float16] stub_viewer))
      as (Hfs & _).
    destruct (Hfs [brighten; to_float16] eq_refl) as (_ & Hst & _).
    rewrite Hst. reflexivity.
  - destruct (update_image_recomputes_from_original
                (Viewer.set_pipelines [Some crop_to_nothing] stub_viewer))
      as (Hfs & _).
    destruct (Hfs [crop_to_nothing] eq_refl) as (_ & _ & _ & _ & Hno).
    rewrite Hno; [vm_compute; reflexivity | vm_compute; reflexivity].
Defined.

Lemma update_pipeline_eq (index : Z) (func : Transform) (self : Viewer.t) :
  Viewer.update_pipeline index func self
  = let n := Z.of_nat (length (Viewer.pipelines self)) in
    if (- n <=? index) && (index <? n)
    then Viewer.update_image
           (Viewer.set_pipelines
              (<[Z.to_nat (if index <? 0 then index + n else index) := Some func]>
                 (Viewer.pipelines self)) self)
    else (Raise IndexError, self).
Proof.
  unfold Viewer.update_pipeline, mbind, M_bind, gets, modify. cbn beta iota zeta.
  destruct ((- Z.of_nat (length (Viewer.pipelines self)) <=? index)
            && (index <? Z.of_nat (length (Viewer.pipelines self))));
    reflexivity.
Qed.

(** X8.  [update_pipeline(index, func)] with [index] outside
    [[-n, n)], [n] the number of slots, raises [IndexError] and leaves the
    viewer as it was.  Inside the range it puts [func] in slot
    [index mod n] and in no other slot, keeps the number of slots, the
    reader and the index, and recomputes the image from the new list:
    when every slot of the new list holds a function
    the viewer holds the functions applied in order to the original image,
    and the call answers as the [image] setter answers for that image,
    returning exactly when it is displayable. *)
Theorem update_pipeline_replaces_one_slot
  (index : Z) (func : Transform) (self : Viewer.t) :
  ((index < - Z.of_nat (length (Viewer.pipelines self))
    \/ Z.of_nat (length (Viewer.pipelines self)) <= index) ->
   Viewer.update_pipeline index func self = (Raise IndexError, self))
  /\ (- Z.of_nat (length (Viewer.pipelines self)) <= index
      < Z.of_nat (length (Viewer.pipelines self)) ->
      Viewer.pipelines (snd (Viewer.update_pipeline index func self))
      = <[Z.to_nat (index mod Z.of_nat (length (Viewer.pipelines self)))
          := Some func]> (Viewer.pipelines self)
      /\ Viewer.pipelines (snd (Viewer.update_pipeline index func self))
           !! Z.to_nat (index mod Z.of_nat (length (Viewer.pipelines self)))
         = Some (Some func)
      /\ (forall j : nat,
             j <> Z.to_nat (index mod Z.of_nat (length (Viewer.pipelines self))) ->
             Viewer.pipelines (snd (Viewer.update_pipeline index func self)) !! j
             = Viewer.pipelines self !! j)
      /\ length (Viewer.pipelines (snd (Viewer.update_pipeline index func self)))
         = length (Viewer.pipelines self)
      /\ Viewer.reader (snd (Viewer.update_pipeline index func self))
         = Viewer.reader self
      /\ Viewer.index (snd (Viewer.update_pipeline index func self))
         = Viewer.index self
      /\ forall fs,
          <[Z.to_nat (index mod Z.of_nat (length (Viewer.pipelines self)))
            := Some func]> (Viewer.pipelines self) = map Some fs ->
          fst (Viewer.update_pipeline index func self)
          = fst (Viewer.image_setter
                   (fold_left (fun im f => f im) fs (Viewer.original_image self))
                   self)
          /\ is_ok (fst (Viewer.update_pipeline index func self))
             = displayable
                 (fold_left (fun im f => f im) fs (Viewer.original_image self))
          /\ Viewer._img (snd (Viewer.update_pipeline index func self))
             = fold_left (fun im f => f im) fs (Viewer.original_image self)).
Proof.
  rewrite update_pipeline_eq. cbn zeta.
  set (n := Z.of_nat (length (Viewer.pipelines self))).
  split.
  - intros Hout.
    destruct (Z.leb_spec (- n) index); destruct (Z.ltb_spec index n);
      simpl; try reflexivity; lia.
  - intros Hin.
    destruct (Z.leb_spec (- n) index); [|lia].
    destruct (Z.ltb_spec index n); [|lia]. cbn [andb].
    assert (Hk : (if index <? 0 then index + n else index) = index mod n).
    { destruct (Z.ltb_spec index 0).
      - apply Z.mod_unique with (q := -1); lia.
      - symmetry. apply Z.mod_small. lia. }
    rewrite Hk.
    set (k := Z.to_nat (index mod n)).
    assert (Hklt : (k < length (Viewer.pipelines self))%nat).
    { unfold k. pose proof (Z.mod_pos_bound index n). unfold n in *. lia. }
    set (v1 := Viewer.set_pipelines (<[k:=Some func]> (Viewer.pipelines self)) self).
    destruct (update_image_keeps v1) as (Hr & Hi & Hp & Ho).
    rewrite Hp, Hr, Hi. cbn [v1 Viewer.pipelines Viewer.set_pipelines
                                   Viewer.reader Viewer.index Viewer.original_image].
    split; [reflexivity|].
    split; [apply list_lookup_insert_eq; exact Hklt|].
    split; [intros j Hj; apply list_lookup_insert_ne; congruence|].
    split; [apply length_insert|].
    split; [reflexivity|]. split; [reflexivity|].
    intros fs Hfs.
    destruct (update_image_all_functions v1 fs Hfs) as (Hres & Hok & Himg).
    split; [rewrite Hres; apply image_setter_any_viewer|].
    split; [exact Hok | exact Himg].
Qed.

Lemma update_pipeline_replaces_one_slot_witness :
  Viewer.update_pipeline 5 invert stub_viewer = (Raise IndexError, stub_viewer)
  /\ fst (Viewer.update_pipeline (-1) to_float16
            (Viewer.set_pipelines [Some brighten; None] stub_viewer))
     = Raise (Py.KeyError "float16")
  /\ Viewer.pipelines
       (snd (Viewer.update_pipeline (-1) to_float16
               (Viewer.set_pipelines [Some brighten; None] stub_viewer)))
     = [Some brighten; Some to_float16].
Proof.
  split.
  - apply (proj1 (update_pipeline_replaces_one_slot 5 invert stub_viewer)).
    right. simpl. lia.
  - destruct (proj2 (update_pipeline_replaces_one_slot (-1) to_float16
                       (Viewer.set_pipelines [Some brighten; None] stub_viewer)))
      as (Hps & _ & _ & _ & _ & _ & Hfs); [simpl; lia|].
    destruct (Hfs [brighten; to_float16] eq_refl) as (Hres & _ & _).
    split; [rewrite Hres; vm_compute; reflexivity | rewrite Hps; reflexivity].
Defined.

(** ** Registering and cancelling plugins *)

Lemma add_all_cons (f : Transform) (fs gs : list Transform) (self : Viewer.t) :
  Viewer.pipelines self = map Some gs ->
  add_all (f :: fs) self
  = if displayable
         (fold_left (fun im g => g im) (gs ++ [f])%list (Viewer.original_image self))
    then add_all fs
           (Viewer.set_image
              (fold_left (fun im g => g im) (gs ++ [f])%list
                 (Viewer.original_image self))
              (Viewer.set_pipelines (map Some (gs ++ [f])%list) self))
    else (fst (Viewer.image_setter
                 (fold_left (fun im g => g im) (gs ++ [f])%list
                    (Viewer.original_image self))
                 self),
          Viewer.set_image
            (fold_left (fun im g => g im) (gs ++ [f])%list
               (Viewer.original_image self))
            (Viewer.set_pipelines (map Some (gs ++ [f])%list) self)).
Proof.
  intros Hp. cbn [add_all]. unfold mbind, M_bind. rewrite (add_eq f gs self Hp).
  destruct (displayable _) eqn:Hd.
  - rewrite (image_setter_accepts _ self Hd). reflexivity.
  - rewrite (image_setter_refuses _ self Hd). reflexivity.
Qed.

(** X9.  Plugins are added one after the other to a viewer whose slots all
    hold functions.  As long as the image computed after each addition is
    displayable, nothing raises, the plugins are appended to the pipeline
    list in the order they were added, after the ones already there, and
    once at least one plugin was added the viewer holds all the filters,
    old then new in order, applied to the original image.  At the first
    addition whose image is not displayable the [image] setter's exception
    ends the sequence: that plugin is the last one registered and its
    image is the one the viewer holds.  The reader and the index are
    untouched in every case. *)
Theorem plugins_register_in_order
  (gs fs : list Transform) (self : Viewer.t) :
  Viewer.pipelines self = map Some gs ->
  ((forall k : nat,
       (0 < k <= length fs)%nat ->
       displayable (fold_left (fun im f => f im) (gs ++ take k fs)%list
                      (Viewer.original_image self)) = true) ->
   fst (add_all fs self) = Ok tt
   /\ Viewer.pipelines (snd (add_all fs self)) = map Some (gs ++ fs)%list
   /\ (fs <> [] ->
       Viewer._img (snd (add_all fs self))
       = fold_left (fun im f => f im) (gs ++ fs)%list (Viewer.original_image self)))
  /\ (forall k : nat,
         (0 < k <= length fs)%nat ->
         (forall j : nat,
             (0 < j < k)%nat ->
             displayable (fold_left (fun im f => f im) (gs ++ take j fs)%list
                            (Viewer.original_image self)) = true) ->
         displayable (fold_left (fun im f => f im) (gs ++ take k fs)%list
                        (Viewer.original_image self)) = false ->
         fst (add_all fs self)
         = fst (Viewer.image_setter
                  (fold_left (fun im f => f im) (gs ++ take k fs)%list
                     (Viewer.original_image self))
                  self)
         /\ is_ok (fst (add_all fs self)) = false
         /\ Viewer.pipelines (snd (add_all fs self)) = map Some (gs ++ take k fs)%list
         /\ Viewer._img (snd (add_all fs self))
            = fold_left (fun im f => f im) (gs ++ take k fs)%list
                (Viewer.original_image self))
  /\ Viewer.reader (snd (add_all fs self)) = Viewer.reader self
  /\ Viewer.index (snd (add_all fs self)) = Viewer.index self.
Proof.
  revert gs self. induction fs as [|f fs IH]; intros gs self Hp.
  - cbn [add_all mret M_ret fst snd length take]. rewrite app_nil_r.
    split; [intros _; repeat split; auto; congruence|].
    split; [intros k Hk; lia|]. repeat split.
  - assert (Hshift : forall k : nat,
               (gs ++ take (S k) (f :: fs))%list = ((gs ++ [f]) ++ take k fs)%list).
    { intros k. rewrite <- app_assoc. reflexivity. }
    rewrite (add_all_cons f fs gs self Hp).
    set (im1 := fold_left (fun im g => g im) (gs ++ [f])%list
                  (Viewer.original_image self)).
    set (v1 := Viewer.set_image im1
                 (Viewer.set_pipelines (map Some (gs ++ [f])%list) self)).
    assert (Him1 : fold_left (fun im g => g im) (gs ++ take 1 (f :: fs))%list
                     (Viewer.original_image self) = im1) by reflexivity.
    destruct (IH (gs ++ [f])%list v1 eq_refl) as (Hall & Hfirst & Hr & Hi).
    cbn [v1 Viewer.original_image Viewer.set_image Viewer.set_pipelines
           Viewer.reader Viewer.index] in Hall, Hfirst, Hr, Hi.
    fold v1 in Hall, Hfirst, Hr, Hi.
    destruct (displayable im1) eqn:Hd.
    + split; [|split].
      * intros Hk.
        destruct Hall as (Hok & Hps & Himg).
        { intros k Hkr. rewrite <- Hshift. apply Hk. simpl. lia. }
        rewrite <- app_assoc in Hps, Himg. cbn [app] in Hps, Himg.
        split; [exact Hok|]. split; [exact Hps|].
        intros _. destruct fs as [|f' fs'].
        -- reflexivity.
        -- apply Himg. discriminate.
      * intros [|[|k]] Hk Hbefore Hnot; [lia | congruence |].
        destruct (Hfirst (S k)) as (Hres & Hno & Hps & Himg).
        { simpl in Hk. lia. }
        { intros j Hj. rewrite <- Hshift. apply Hbefore. lia. }
        { rewrite <- Hshift. exact Hnot. }
        rewrite <- Hshift in Hres, Hps, Himg.
        split; [rewrite Hres; apply image_setter_any_viewer|].
        split; [exact Hno|]. split; [exact Hps | exact Himg].
      * split; [exact Hr | exact Hi].
    + cbn [fst snd]. split; [|split].
      * intros Hk. specialize (Hk 1%nat). rewrite Him1 in Hk.
        rewrite Hd in Hk. discriminate Hk. simpl. lia.
      * intros [|[|k]] Hk Hbefore Hnot; [lia | |].
        -- rewrite Him1. split; [reflexivity|].
           split; [rewrite <- (image_setter_displayable im1 self) in Hd; exact Hd|].
           split; reflexivity.
        -- specialize (Hbefore 1%nat). rewrite Him1, Hd in Hbefore.
           discriminate Hbefore. lia.
      * repeat split.
Qed.

Lemma plugins_register_in_order_witness :
  Viewer.pipelines stub_viewer = []
  /\ fst (add_all [brighten; invert; brighten] stub_viewer) = Ok tt
  /\ pixels (frame_data
               (Viewer._img (snd (add_all [brighten; invert; brighten] stub_viewer))))
     = [255; 254; 253; 252]
  /\ fst (add_all [brighten; to_float16; invert] stub_viewer)
     = Raise (Py.KeyError "float16")
  /\ Viewer.pipelines (snd (add_all [brighten; to_float16; invert] stub_viewer))
     = [Some brighten; Some to_float16].
Proof.
  split; [reflexivity|].
  destruct (plugins_register_in_order [] [brighten; invert; brighten]
              stub_viewer eq_refl) as (Hall & _).
  destruct Hall as (Hok & _ & Himg).
  { intros [|[|[|[|k]]]] Hk; try (simpl in Hk; lia); vm_compute; reflexivity. }
  split; [exact Hok|]. split; [rewrite Himg by discriminate; reflexivity|].
  destruct (plugins_register_in_order [] [brighten; to_float16; invert]
              stub_viewer eq_refl) as (_ & Hfirst & _).
  destruct (Hfirst 2%nat) as (Hres & _ & Hps & _).
  { simpl. lia. }
  { intros [|[|j]] Hj; try lia. vm_compute. reflexivity. }
  { vm_compute. reflexivity. }
  split; [rewrite Hres; vm_compute; reflexivity | exact Hps].
Defined.

Lemma show_loop_lookup (fs : list Transform) :
  forall (previous : Seq) (k : nat),
    (k < length fs)%nat ->
    Viewer.show_loop (map Some fs) previous !! k
    = Some (fold_left (fun up f => pipeline (Some f) up) (take (S k) fs) previous).
Proof.
  induction fs as [|f fs IH]; intros previous k Hk; simpl in Hk; [lia|].
  destruct k as [|k].
  - destruct fs; reflexivity.
  - cbn [map Viewer.show_loop]. cbn [lookup list_lookup].
    rewrite IH by lia. reflexivity.
Qed.

(** X10.  [show] returns one sequence more than there are registered
    transforms.  Entry [k] of the list is the reader under the first [k]
    transforms: indexing it at [i] asks the reader for frame [i] once and
    returns those [k] transforms applied, in registration order, to the
    frame the reader returned, or fails as the reader failed.  Entry 0 is
    the reader itself. *)
Theorem show_entries_are_pipeline_prefixes
  (fs : list Transform) (self : Viewer.t) :
  Viewer.pipelines self = map Some fs ->
  length (Viewer.show self) = S (length fs)
  /\ Viewer.show self !! 0%nat = Some Root
  /\ forall k : nat,
      (k <= length fs)%nat ->
      exists s,
        Viewer.show self !! k = Some s
        /\ forall i,
            Viewer.result_getitem s i self
            = (rmap (fun p => fold_left (fun im f => f im) (take k fs) p)
                 (fst (api.ImageIOReader.__getitem__ i (Viewer.reader self))),
               Viewer.set_reader self
                 (snd (api.ImageIOReader.__getitem__ i (Viewer.reader self)))).
Proof.
  intros Hp. unfold Viewer.show. rewrite Hp.
  assert (Hlen : forall prev, length (Viewer.show_loop (map Some fs) prev) = length fs).
  { clear. induction fs as [|f fs IH]; intros prev; simpl; [reflexivity|].
    rewrite IH. reflexivity. }
  split; [simpl; rewrite Hlen; reflexivity|]. split; [reflexivity|].
  intros k Hk.
  exists (fold_left (fun up f => pipeline (Some f) up) (take k fs) Root). split.
  - destruct k as [|k]; [reflexivity|].
    cbn [lookup list_lookup]. apply show_loop_lookup. lia.
  - intros i. unfold Viewer.result_getitem, Viewer.on_reader, zoom.
    rewrite (getitem_chain api.ImageIOReader.__getitem__ (take k fs) Root i).
    cbn [getitem].
    destruct (api.ImageIOReader.__getitem__ i (Viewer.reader self)) as [[p|e] r];
      reflexivity.
Qed.

Lemma show_entries_are_pipeline_prefixes_witness :
  Viewer.pipelines (snd (add_all [brighten; invert] stub_viewer))
  = map Some [brighten; invert]
  /\ length (Viewer.show (snd (add_all [brighten; invert] stub_viewer))) = 3%nat.
Proof.
  split; [reflexivity|].
  exact (proj1 (show_entries_are_pipeline_prefixes [brighten; invert]
                  (snd (add_all [brighten; invert] stub_viewer)) eq_refl)).
Defined.

Lemma del_item_in_range {A} (k : nat) (l : list A) :
  (k < length l)%nat -> del_item (Z.of_nat k) l = Ok (delete k l).
Proof.
  intros Hk. unfold del_item.
  destruct (Z.leb_spec (- Z.of_nat (length l)) (Z.of_nat k)); [|lia].
  destruct (Z.ltb_spec (Z.of_nat k) (Z.of_nat (length l))); [|lia].
  destruct (Z.ltb_spec (Z.of_nat k) 0); [lia|].
  simpl. rewrite Nat2Z.id. reflexivity.
Qed.

Lemma map_delete {A B} (f : A -> B) (k : nat) (l : list A) :
  map f (delete k l) = delete k (map f l).
Proof.
  revert k. induction l as [|x l IH]; intros [|k]; simpl; try reflexivity.
  rewrite IH. reflexivity.
Qed.

(** X11.  Cancelling the plugin that holds slot [k] of [n] filled slots
    deletes that slot, so the transforms after it move down by one, and
    the image is recomputed from the remaining transforms in order: the
    viewer holds that image, and the call answers as the [image] setter
    answers for it, returning exactly when it is displayable.  The
    reader and the index are untouched.  The indices held by
    the plugins registered later are not adjusted: the one registered last
    still holds [n - 1], and its next filter update raises [IndexError]
    and changes nothing. *)
Theorem cancel_pipeline_deletes_the_slot
  (fs : list Transform) (k : nat) (func : Transform) (self : Viewer.t) :
  Viewer.pipelines self = map Some fs ->
  (k < length fs)%nat ->
  fst (cancel_pipeline (Some (Z.of_nat k)) self)
  = fst (Viewer.image_setter
           (fold_left (fun im f => f im) (delete k fs) (Viewer.original_image self))
           self)
  /\ is_ok (fst (cancel_pipeline (Some (Z.of_nat k)) self))
     = displayable
         (fold_left (fun im f => f im) (delete k fs) (Viewer.original_image self))
  /\ Viewer.pipelines (snd (cancel_pipeline (Some (Z.of_nat k)) self))
     = map Some (delete k fs)
  /\ Viewer._img (snd (cancel_pipeline (Some (Z.of_nat k)) self))
     = fold_left (fun im f => f im) (delete k fs) (Viewer.original_image self)
  /\ Viewer.reader (snd (cancel_pipeline (Some (Z.of_nat k)) self))
     = Viewer.reader self
  /\ Viewer.index (snd (cancel_pipeline (Some (Z.of_nat k)) self))
     = Viewer.index self
  /\ Viewer.update_pipeline (Z.of_nat (length fs) - 1) func
       (snd (cancel_pipeline (Some (Z.of_nat k)) self))
     = (Raise IndexError, snd (cancel_pipeline (Some (Z.of_nat k)) self)).
Proof.
  intros Hp Hk.
  assert (Hcancel : cancel_pipeline (Some (Z.of_nat k)) self
                    = Viewer.update_image
                        (Viewer.set_pipelines (map Some (delete k fs)) self)).
  { unfold cancel_pipeline, mbind, M_bind, gets, modify. cbn beta iota.
    rewrite Hp, del_item_in_range by (rewrite length_map; exact Hk).
    rewrite map_delete. reflexivity. }
  rewrite Hcancel.
  set (v1 := Viewer.set_pipelines (map Some (delete k fs)) self).
  destruct (update_image_all_functions v1 (delete k fs) eq_refl)
    as (Hres & Hok & Himg).
  destruct (update_image_keeps v1) as (Hr & Hi & Hps & Ho).
  split; [rewrite Hres; apply image_setter_any_viewer|].
  split; [exact Hok|]. split; [exact Hps|]. split; [exact Himg|].
  split; [exact Hr|]. split; [exact Hi|].
  rewrite update_pipeline_eq. cbn zeta. rewrite Hps.
  cbn [v1 Viewer.pipelines Viewer.set_pipelines].
  rewrite length_map, length_delete by (apply lookup_lt_is_Some_2; exact Hk).
  destruct (Z.ltb_spec (Z.of_nat (length fs) - 1) (Z.of_nat (length fs - 1)));
    [lia|].
  rewrite andb_false_r. reflexivity.
Qed.

Lemma cancel_pipeline_deletes_the_slot_witness :
  Viewer.pipelines (snd (add_all [brighten; invert] stub_viewer))
  = map Some [brighten; invert]
  /\ fst (cancel_pipeline (Some 0) (snd (add_all [brighten; invert] stub_viewer)))
     = Ok tt
  /\ Viewer.pipelines
       (snd (cancel_pipeline (Some 0) (snd (add_all [brighten; invert] stub_viewer))))
     = [Some invert]
  /\ fst (Viewer.update_pipeline 1 brighten
            (snd (cancel_pipeline (Some 0)
                    (snd (add_all [brighten; invert] stub_viewer)))))
     = Raise IndexError.
Proof.
  split; [vm_compute; reflexivity|].
  destruct (cancel_pipeline_deletes_the_slot [brighten; invert] 0 brighten
              (snd (add_all [brighten; invert] stub_viewer))
              ltac:(vm_compute; reflexivity) ltac:(simpl; lia))
    as (Hres & _ & Hps & _ & _ & _ & Hstale).
  change (Z.of_nat 0) with 0 in Hres, Hps, Hstale.
  split; [rewrite Hres; vm_compute; reflexivity|].
  split; [exact Hps|].
  change (Z.of_nat (length [brighten; invert]) - 1) with 1 in Hstale.
  rewrite Hstale. reflexivity.
Defined.

(** ** Moving to another frame *)

(** X12.  When [update_index] moves to a new clamped index [c]: if the
    reader returns the frame, that frame becomes the original image, the
    viewer holds the transforms applied to it, index and slider are [c],
    and the call answers as the [image] setter answers for the new image,
    returning exactly when it is displayable; if the reader raises, the
    same exception leaves [update_index] with index and slider already at
    [c] while the original and the displayed image are still the old ones,
    and asking for the same index again returns at once without reading,
    so the stale image stays on display. *)
Theorem update_index_read_outcomes (index : Z) (self : Viewer.t) :
  0 < api.ImageIOReader._len (Viewer.reader self) ->
  Z.min (Z.max index 0) (api.ImageIOReader._len (Viewer.reader self) - 1)
  <> Viewer.index self ->
  (forall fr r fs,
      api.ImageIOReader.__getitem__
        (Z.min (Z.max index 0) (api.ImageIOReader._len (Viewer.reader self) - 1))
        (Viewer.reader self) = (Ok fr, r) ->
      Viewer.pipelines self = map Some fs ->
      Viewer.update_index index self
      = (fst (Viewer.image_setter (fold_left (fun im f => f im) fs fr) self),
         Viewer.mk (Viewer.pipelines self)
           (Z.min (Z.max index 0) (api.ImageIOReader._len (Viewer.reader self) - 1))
           r fr (fold_left (fun im f => f im) fs fr)
           (Z.min (Z.max index 0) (api.ImageIOReader._len (Viewer.reader self) - 1)))
      /\ is_ok (fst (Viewer.update_index index self))
         = displayable (fold_left (fun im f => f im) fs fr))
  /\ (forall e r,
         api.ImageIOReader.__getitem__
           (Z.min (Z.max index 0) (api.ImageIOReader._len (Viewer.reader self) - 1))
           (Viewer.reader self) = (Raise e, r) ->
         Viewer.update_index index self
         = (Raise e,
            Viewer.mk (Viewer.pipelines self)
              (Z.min (Z.max index 0) (api.ImageIOReader._len (Viewer.reader self) - 1))
              r (Viewer.original_image self) (Viewer._img self)
              (Z.min (Z.max index 0) (api.ImageIOReader._len (Viewer.reader self) - 1)))
         /\ Viewer.update_index index (snd (Viewer.update_index index self))
            = (Ok tt, snd (Viewer.update_index index self))).
Proof.
  intros Hpos Hne.
  set (c := Z.min (Z.max index 0) (api.ImageIOReader._len (Viewer.reader self) - 1)) in *.
  assert (Hstep : Viewer.update_index index self
                  = match api.ImageIOReader.__getitem__ c (Viewer.reader self) with
                    | (Ok image, r) =>
                        Viewer.update_image
                          (Viewer.set_original_image image
                             (Viewer.set_reader
                                (Viewer.set_slider_val c (Viewer.set_index c self)) r))
                    | (Raise e, r) =>
                        (Raise e,
                         Viewer.set_reader
                           (Viewer.set_slider_val c (Viewer.set_index c self)) r)
                    end).
  { rewrite update_index_eq. cbn zeta. fold c.
    destruct (Z.eqb_spec c (Viewer.index self)); [contradiction | reflexivity]. }
  split.
  - intros fr r fs Hget Hp. rewrite Hstep, Hget.
    rewrite (update_image_some
               (Viewer.set_original_image fr
                  (Viewer.set_reader
                     (Viewer.set_slider_val c (Viewer.set_index c self)) r))
               fs Hp).
    cbn [Viewer.original_image Viewer.set_original_image].
    split.
    + rewrite (image_setter_any_viewer _ self
                 (Viewer.set_original_image fr
                    (Viewer.set_reader
                       (Viewer.set_slider_val c (Viewer.set_index c self)) r))).
      rewrite (surjective_pairing (Viewer.image_setter _ _)) at 1.
      rewrite image_setter_state. reflexivity.
    + apply image_setter_displayable.
  - intros e r Hget. rewrite Hstep, Hget. split; [reflexivity|].
    cbn [snd]. rewrite update_index_eq. cbn zeta.
    cbn [Viewer.reader Viewer.index Viewer.set_reader Viewer.set_slider_val
           Viewer.set_index].
    assert (Hlen : api.ImageIOReader._len r
                   = api.ImageIOReader._len (Viewer.reader self)).
    { pose proof (getitem_evolves c (Viewer.reader self)) as Hev.
      rewrite Hget in Hev. destruct Hev as (_ & _ & Hl & _). exact Hl. }
    rewrite Hlen. fold c. rewrite Z.eqb_refl. reflexivity.
Qed.

Lemma update_index_read_outcomes_witness :
  0 < api.ImageIOReader._len (Viewer.reader closed_viewer)
  /\ fst (Viewer.update_index 2 closed_viewer) = Raise ClosedSequence
  /\ Viewer.index (snd (Viewer.update_index 2 closed_viewer)) = 2
  /\ Viewer._img (snd (Viewer.update_index 2 closed_viewer)) = frame0
  /\ Viewer.update_index 2 (snd (Viewer.update_index 2 closed_viewer))
     = (Ok tt, snd (Viewer.update_index 2 closed_viewer))
  /\ fst (Viewer.update_index 1
            (Viewer.set_pipelines [Some to_float16] stub_viewer))
     = Raise (Py.KeyError "float16")
  /\ Viewer.index
       (snd (Viewer.update_index 1
               (Viewer.set_pipelines [Some to_float16] stub_viewer)))
     = 1.
Proof.
  split; [reflexivity|].
  destruct (proj2 (update_index_read_outcomes 2 closed_viewer eq_refl
                     ltac:(simpl; lia))
              ClosedSequence (Viewer.reader closed_viewer) eq_refl)
    as [Hfail Hagain].
  rewrite Hfail. cbn [fst snd Viewer.index Viewer._img].
  split; [reflexivity|]. split; [reflexivity|]. split; [reflexivity|].
  rewrite Hfail in Hagain. split; [exact Hagain|].
  destruct (proj1 (update_index_read_outcomes 1
                     (Viewer.set_pipelines [Some to_float16] stub_viewer) eq_refl
                     ltac:(simpl; lia))
              (as_frame 1 array1)
              (ImageIOReader.set_reader stub_facade
                 (log_read 1 (ImageIOReader.reader stub_facade)))
              [to_float16] eq_refl eq_refl)
    as [Hmove _].
  rewrite Hmove. split; [vm_compute; reflexivity | reflexivity].
Defined.

(** ** The colour range of the displayed image *)

Lemma dtype_range_bounds (dt : string) (dlo dhi : Z) :
  dtype_range !! dt = Some (dlo, dhi) ->
  dlo <= 0 < dhi
  /\ (float_dtype dt = false -> dlo = 0 \/ dlo = - (dhi + 1)).
Proof.
  intros H. apply elem_of_list_to_map_2 in H.
  repeat (apply elem_of_cons in H as [H|H];
          [injection H as -> -> ->;
           split; [lia | intros Hf; try discriminate Hf; lia]|]).
  apply elem_of_nil in H. destruct H.
Qed.

Lemma fold_min_glb (ps : list Z) :
  forall p b, b <= fold_left Z.min ps p <-> b <= p /\ Forall (fun q => b <= q) ps.
Proof.
  induction ps as [|q ps IH]; intros p b; simpl.
  - split; [intros H; split; [exact H | constructor] | intros [H _]; exact H].
  - rewrite IH, Forall_cons. split.
    + intros [H1 H2]. split; [lia|]. split; [lia | exact H2].
    + intros [H1 [H2 H3]]. split; [lia | exact H3].
Qed.

(** X13.  The colour range of an image of a boolean or integer type.  For
    a type that [dtype_range] does not list the lookup raises [KeyError].
    For a listed type, with range [[dlo, dhi]], [dlo] is 0 or
    [- (dhi + 1)]; an image without elements raises [ValueError] when
    [dlo] is negative and gets the type's range otherwise; an image with
    elements gets [[lo, dhi]] where [lo] is 0 when no element is negative
    and [dlo] otherwise, so the range always contains every element that
    fits the type. *)
Theorem colour_range_covers_the_image (image : ndarray) :
  float_dtype (dtype image) = false ->
  (dtype_range !! dtype image = None ->
   clim image = Raise (Py.KeyError (dtype image)))
  /\ forall dlo dhi,
      dtype_range !! dtype image = Some (dlo, dhi) ->
      (dlo = 0 \/ dlo = - (dhi + 1))
      /\ (pixels image = [] ->
          clim image = if dlo <? 0 then Raise Py.ValueError else Ok (dlo, dhi))
      /\ (pixels image <> [] ->
          exists lo,
            clim image = Ok (lo, dhi)
            /\ dlo <= lo <= 0
            /\ (Forall (fun p => 0 <= p) (pixels image) -> lo = 0)
            /\ (~ Forall (fun p => 0 <= p) (pixels image) -> lo = dlo)
            /\ (Forall (fun p => dlo <= p <= dhi) (pixels image) ->
                Forall (fun p => lo <= p <= dhi) (pixels image))).
Proof.
  intros Hint. unfold clim. split.
  - intros ->. reflexivity.
  - intros dlo dhi Hdt. rewrite Hdt.
    destruct (dtype_range_bounds _ _ _ Hdt) as [Hb Hfull].
    split; [exact (Hfull Hint)|].
    unfold array_min. split.
    + intros ->. destruct (dlo <? 0); reflexivity.
    + intros Hne. destruct (pixels image) as [|p ps] eqn:Hpx; [contradiction|].
      pose proof (fold_min_glb ps p 0) as Hmin.
      rewrite <- Forall_cons in Hmin.
      destruct (Z.ltb_spec dlo 0).
      * destruct (Z.geb_spec (fold_left Z.min ps p) 0) as [Hge|Hlt].
        -- assert (Hall : Forall (fun q => 0 <= q) (p :: ps)) by (apply Hmin; lia).
           exists 0. split; [reflexivity|]. split; [lia|].
           split; [reflexivity|]. split; [intros Hn; contradiction|].
           intros Hfit. rewrite Forall_forall in Hall, Hfit |- *.
           intros q Hq. specialize (Hall q Hq). specialize (Hfit q Hq). lia.
        -- exists dlo. split; [reflexivity|]. split; [lia|].
           split; [intros Hall; apply Hmin in Hall; lia|].
           split; [reflexivity|]. auto.
      * exists dlo. split; [reflexivity|]. split; [lia|].
        split; [intros _; lia|]. split; [reflexivity|]. auto.
Qed.

Lemma colour_range_covers_the_image_witness :
  float_dtype "int16" = false
  /\ clim (mk_ndarray [3; 0; 7] [1; 3] "int16") = Ok (0, 32767)
  /\ clim (mk_ndarray [3; -2; 7] [1; 3] "int16") = Ok (-32768, 32767)
  /\ clim (mk_ndarray [] [0; 3] "int16") = Raise Py.ValueError
  /\ clim (mk_ndarray [] [0; 3] "uint8") = Ok (0, 255).
Proof.
  split; [reflexivity|].
  pose proof (colour_range_covers_the_image (mk_ndarray [3; 0; 7] [1; 3] "int16")
                eq_refl) as [_ Hpos].
  pose proof (colour_range_covers_the_image (mk_ndarray [3; -2; 7] [1; 3] "int16")
                eq_refl) as [_ Hneg].
  pose proof (colour_range_covers_the_image (mk_ndarray [] [0; 3] "int16")
                eq_refl) as [_ Hempty].
  pose proof (colour_range_covers_the_image (mk_ndarray [] [0; 3] "uint8")
                eq_refl) as [_ Hempty8].
  destruct (Hpos (-32768) 32767 eq_refl) as (_ & _ & lo & Hc & _ & Hz & _);
    [discriminate|].
  destruct (Hneg (-32768) 32767 eq_refl) as (_ & _ & lo' & Hc' & _ & _ & Hd & _);
    [discriminate|].
  split; [rewrite Hc, Hz; [reflexivity | repeat constructor; lia]|].
  split; [rewrite Hc', Hd; [reflexivity|]|].
  { intros Hall. apply Forall_cons in Hall as [_ Hall].
    apply Forall_cons in Hall as [Hbad _]. lia. }
  split.
  - exact (proj1 (proj2 (Hempty (-32768) 32767 eq_refl)) eq_refl).
  - exact (proj1 (proj2 (Hempty8 0 255 eq_refl)) eq_refl).
Defined.

(** ** Blitting *)

Lemma list_remove_middle (x : Z) (l r : list Z) :
  x ∉ l ->
  BlitManager.list_remove x (l ++ x :: r) = Returned (l ++ r)%list.
Proof.
  induction l as [|y l IH]; intros Hx; simpl.
  - rewrite Z.eqb_refl. reflexivity.
  - apply not_elem_of_cons in Hx as [Hne Hx].
    destruct (Z.eqb_spec x y); [contradiction|].
    rewrite (IH Hx). reflexivity.
Qed.

Lemma list_remove_absent (x : Z) (l : list Z) :
  x ∉ l -> BlitManager.list_remove x l = Raised ValueError.
Proof.
  induction l as [|y l IH]; intros Hx; simpl; [reflexivity|].
  apply not_elem_of_cons in Hx as [Hne Hx].
  destruct (Z.eqb_spec x y); [contradiction|].
  rewrite (IH Hx). reflexivity.
Qed.

Lemma remove_artists_appended (new : list Z) :
  forall (l : list Z) (bg : option Z) (cs : list BlitManager.canvas_call),
    Forall (fun a => a ∉ l) new ->
    BlitManager.remove_artists new (BlitManager.mk (l ++ new) bg cs)
    = (Returned tt, BlitManager.mk l bg cs).
Proof.
  induction new as [|a new IH]; intros l bg cs Hall; simpl.
  - rewrite app_nil_r. reflexivity.
  - apply Forall_cons in Hall as [Ha Hall].
    rewrite (list_remove_middle a l new Ha). simpl. apply IH. exact Hall.
Qed.

(** X14.  [add_artists] appends the new artists and redraws: with a saved
    background it restores it, draws every artist once, old ones first, in
    list order, and blits; without one it only asks for an idle draw.
    Removing artists that were just added, none of which was already
    managed, returns normally and restores the artist list, without
    drawing anything.  Removing an artist that is not managed raises
    [ValueError], and the artists listed before it are already removed. *)
Theorem added_artists_can_be_removed (new : list Z) (self : BlitManager.t) :
  BlitManager.artists (BlitManager.add_artists new self)
  = (BlitManager.artists self ++ new)%list
  /\ BlitManager.calls (BlitManager.add_artists new self)
     = (BlitManager.calls self
        ++ match BlitManager.background self with
           | Some region =>
               [BlitManager.restore_region region]
               ++ map BlitManager.draw_artist (BlitManager.artists self ++ new)
               ++ [BlitManager.blit]
           | None => [BlitManager.draw_idle]
           end)%list
  /\ (Forall (fun a => a ∉ BlitManager.artists self) new ->
      BlitManager.remove_artists new (BlitManager.add_artists new self)
      = (Returned tt,
         BlitManager.mk (BlitManager.artists self)
           (BlitManager.background self)
           (BlitManager.calls (BlitManager.add_artists new self))))
  /\ (forall kept absent rest,
         Forall (fun a => a ∉ BlitManager.artists self) kept ->
         absent ∉ BlitManager.artists self ->
         BlitManager.remove_artists (kept ++ absent :: rest)
           (BlitManager.mk (BlitManager.artists self ++ kept)
              (BlitManager.background self) (BlitManager.calls self))
         = (Raised ValueError, self)).
Proof.
  destruct self as [arts bg cs]. cbn [BlitManager.artists BlitManager.background
                                       BlitManager.calls].
  assert (Hadd : BlitManager.add_artists new (BlitManager.mk arts bg cs)
                 = BlitManager.mk (arts ++ new) bg
                     (cs ++ match bg with
                            | Some region =>
                                [BlitManager.restore_region region]
                                ++ map BlitManager.draw_artist (arts ++ new)
                                ++ [BlitManager.blit]
                            | None => [BlitManager.draw_idle]
                            end)).
  { unfold BlitManager.add_artists, BlitManager.redraw, BlitManager.draw_artists,
      BlitManager.log. cbn [BlitManager.artists BlitManager.background
                              BlitManager.calls].
    destruct bg; [|reflexivity]. f_equal.
    rewrite <- !app_assoc. reflexivity. }
  rewrite Hadd. cbn [BlitManager.artists BlitManager.calls].
  split; [reflexivity|]. split; [reflexivity|]. split.
  - intros Hall. apply remove_artists_appended. exact Hall.
  - intros kept absent rest Hkept Habs. clear Hadd. revert arts Hkept Habs.
    induction kept as [|k kept IH]; intros arts Hkept Habs; simpl.
    + rewrite app_nil_r, (list_remove_absent absent arts Habs). reflexivity.
    + apply Forall_cons in Hkept as [Hk Hkept].
      rewrite (list_remove_middle k arts kept Hk). simpl.
      apply IH; assumption.
Qed.

Lemma added_artists_can_be_removed_witness :
  Forall (fun a => a ∉ BlitManager.artists (BlitManager.mk [1; 2] (Some 9) [])) [3; 4]
  /\ fst (BlitManager.remove_artists [3; 4]
            (BlitManager.add_artists [3; 4] (BlitManager.mk [1; 2] (Some 9) [])))
     = Returned tt
  /\ BlitManager.artists
       (snd (BlitManager.remove_artists [3; 4]
               (BlitManager.add_artists [3; 4] (BlitManager.mk [1; 2] (Some 9) []))))
     = [1; 2].
Proof.
  assert (H : Forall (fun a => a ∉ [1; 2]) [3; 4]).
  { repeat constructor; intros Hin;
      repeat (apply elem_of_cons in Hin as [Hin|Hin]; [discriminate|]);
      apply elem_of_nil in Hin; exact Hin. }
  split; [exact H|].
  destruct (added_artists_can_be_removed [3; 4] (BlitManager.mk [1; 2] (Some 9) []))
    as (_ & _ & Hrm & _).
  rewrite (Hrm H). split; reflexivity.
Defined.

(** ** Plugin widgets *)

Lemma add_widget_layout (w : PipelinePlugin.Widget) (self : PipelinePlugin.t) :
  PipelinePlugin.row (PipelinePlugin.add_widget w self) = PipelinePlugin.row self + 1
  /\ PipelinePlugin.layout (PipelinePlugin.add_widget w self)
     = (PipelinePlugin.layout self ++ [(w, PipelinePlugin.row self)])%list
  /\ PipelinePlugin.owned (PipelinePlugin.add_widget w self)
     = (PipelinePlugin.owned self ++ [PipelinePlugin.wid w])%list.
Proof.
  unfold PipelinePlugin.add_widget.
  destruct (String.eqb (PipelinePlugin.ptype w) "kwarg");
    [|destruct (String.eqb (PipelinePlugin.ptype w) "arg");
      [|destruct (String.eqb (PipelinePlugin.ptype w) "plugin")]];
    repeat split.
Qed.

(** X15.  Widgets added to a plugin are laid out one per row in the order
    they were added, whatever their [ptype], known or not: after adding
    [n] widgets the row counter has advanced by [n], the layout has the
    widgets at the consecutive rows starting from the old counter, and
    each of them has the plugin as its owner. *)
Theorem widgets_take_consecutive_rows
  (widgets : list PipelinePlugin.Widget) (self : PipelinePlugin.t) :
  PipelinePlugin.row (PipelinePlugin.add_widgets widgets self)
  = PipelinePlugin.row self + Z.of_nat (length widgets)
  /\ PipelinePlugin.layout (PipelinePlugin.add_widgets widgets self)
     = (PipelinePlugin.layout self
        ++ zip widgets (seqZ (PipelinePlugin.row self) (Z.of_nat (length widgets))))%list
  /\ PipelinePlugin.owned (PipelinePlugin.add_widgets widgets self)
     = (PipelinePlugin.owned self ++ map PipelinePlugin.wid widgets)%list.
Proof.
  revert self. induction widgets as [|w ws IH]; intros self.
  - simpl. rewrite Z.add_0_r, !app_nil_r. repeat split.
  - unfold PipelinePlugin.add_widgets. cbn [fold_left].
    fold (PipelinePlugin.add_widgets ws (PipelinePlugin.add_widget w self)).
    destruct (IH (PipelinePlugin.add_widget w self)) as (Hrow & Hlay & Hown).
    destruct (add_widget_layout w self) as (Hr1 & Hl1 & Ho1).
    rewrite Hrow, Hlay, Hown, Hr1, Hl1, Ho1.
    split; [cbn [length]; lia|]. split.
    + rewrite (seqZ_cons (PipelinePlugin.row self)) by (cbn [length]; lia).
      replace (Z.pred (Z.of_nat (length (w :: ws)))) with (Z.of_nat (length ws))
        by (cbn [length]; lia).
      replace (Z.succ (PipelinePlugin.row self)) with (PipelinePlugin.row self + 1)
        by lia.
      rewrite <- app_assoc. reflexivity.
    + rewrite <- app_assoc. reflexivity.
Qed.

Lemma replace_spaces_no_space (s : string) :
  ~ In " "%char (list_ascii_of_string (PipelinePlugin.replace_spaces s)).
Proof.
  induction s as [|c s IH]; simpl; [tauto|].
  intros [H|H]; [|exact (IH H)].
  destruct (Ascii.eqb_spec c " "); [discriminate | congruence].
Qed.

(** X16.  A widget of ptype ["kwarg"] is passed to the image filter under
    its name with every space replaced by an underscore, a keyword that
    never contains a space, with the widget's [val] as value; the other
    keywords are untouched.  Two such widgets whose names differ only in
    spaces against underscores share one keyword: the one added later
    replaces the earlier one in the filter's arguments, though both are
    laid out.  A widget of an unknown ptype is laid out but becomes no
    argument of the filter and gets no callback. *)
Theorem keyword_widgets_are_keyed_by_underscored_name
  (w : PipelinePlugin.Widget) (self : PipelinePlugin.t) :
  (PipelinePlugin.ptype w = "kwarg" ->
   PipelinePlugin.keyword_arguments (PipelinePlugin.add_widget w self)
     !! PipelinePlugin.replace_spaces (PipelinePlugin.wname w) = Some w
   /\ PipelinePlugin.filter_kwargs (PipelinePlugin.add_widget w self)
        !! PipelinePlugin.replace_spaces (PipelinePlugin.wname w)
      = Some (PipelinePlugin._get_value w)
   /\ ~ In " "%char
          (list_ascii_of_string
             (PipelinePlugin.replace_spaces (PipelinePlugin.wname w)))
   /\ (forall key,
          key <> PipelinePlugin.replace_spaces (PipelinePlugin.wname w) ->
          PipelinePlugin.filter_kwargs (PipelinePlugin.add_widget w self) !! key
          = PipelinePlugin.filter_kwargs self !! key)
   /\ PipelinePlugin.callbacks (PipelinePlugin.add_widget w self)
        !! PipelinePlugin.wid w = Some PipelinePlugin.filter_image
   /\ forall earlier,
       PipelinePlugin.ptype earlier = "kwarg" ->
       PipelinePlugin.replace_spaces (PipelinePlugin.wname earlier)
       = PipelinePlugin.replace_spaces (PipelinePlugin.wname w) ->
       PipelinePlugin.keyword_arguments
         (PipelinePlugin.add_widget w (PipelinePlugin.add_widget earlier self))
       = PipelinePlugin.keyword_arguments (PipelinePlugin.add_widget w self)
       /\ PipelinePlugin.layout
            (PipelinePlugin.add_widget w (PipelinePlugin.add_widget earlier self))
          = (PipelinePlugin.layout self
             ++ [(earlier, PipelinePlugin.row self);
                 (w, PipelinePlugin.row self + 1)])%list)
  /\ (PipelinePlugin.ptype w <> "kwarg" ->
      PipelinePlugin.ptype w <> "arg" ->
      PipelinePlugin.ptype w <> "plugin" ->
      PipelinePlugin.keyword_arguments (PipelinePlugin.add_widget w self)
      = PipelinePlugin.keyword_arguments self
      /\ PipelinePlugin.arguments (PipelinePlugin.add_widget w self)
         = PipelinePlugin.arguments self
      /\ PipelinePlugin.callbacks (PipelinePlugin.add_widget w self)
         = PipelinePlugin.callbacks self
      /\ PipelinePlugin.layout (PipelinePlugin.add_widget w self)
         = (PipelinePlugin.layout self ++ [(w, PipelinePlugin.row self)])%list).
Proof.
  split.
  - intros Hk.
    assert (Hkw : forall p,
               PipelinePlugin.keyword_arguments (PipelinePlugin.add_widget w p)
               = <[PipelinePlugin.replace_spaces (PipelinePlugin.wname w) := w]>
                   (PipelinePlugin.keyword_arguments p)).
    { intros p. unfold PipelinePlugin.add_widget. rewrite Hk. reflexivity. }
    unfold PipelinePlugin.filter_kwargs. rewrite Hkw.
    split; [apply lookup_insert_eq|].
    split; [rewrite lookup_fmap, lookup_insert_eq; reflexivity|].
    split; [apply replace_spaces_no_space|].
    split; [intros key Hne; rewrite !lookup_fmap, lookup_insert_ne by congruence;
            reflexivity|].
    split.
    { unfold PipelinePlugin.add_widget. rewrite Hk. cbn. apply lookup_insert_eq. }
    intros earlier Hek Hsame. split.
    + rewrite Hkw.
      assert (He : PipelinePlugin.keyword_arguments
                     (PipelinePlugin.add_widget earlier self)
                   = <[PipelinePlugin.replace_spaces (PipelinePlugin.wname w)
                       := earlier]> (PipelinePlugin.keyword_arguments self)).
      { unfold PipelinePlugin.add_widget. rewrite Hek, Hsame. reflexivity. }
      rewrite He. apply insert_insert_eq.
    + destruct (add_widget_layout w (PipelinePlugin.add_widget earlier self))
        as (_ & Hl2 & _).
      destruct (add_widget_layout earlier self) as (Hr1 & Hl1 & _).
      rewrite Hl2, Hl1, Hr1, <- app_assoc. reflexivity.
  - intros H1 H2 H3. unfold PipelinePlugin.add_widget.
    destruct (String.eqb_spec (PipelinePlugin.ptype w) "kwarg"); [contradiction|].
    destruct (String.eqb_spec (PipelinePlugin.ptype w) "arg"); [contradiction|].
    destruct (String.eqb_spec (PipelinePlugin.ptype w) "plugin"); [contradiction|].
    repeat split.
Qed.
